(** * pbench-index: the indexing driver of the pbench server

    A shallow embedding of [main] from [server/bin/pbench-index.py]: the
    discovery of queued tar balls, the per tar ball indexing step with its
    classification of exceptions into status codes, the move of the tar
    ball link between the workflow directories, and the result code of
    the run.

    The collaborators that live outside the driver (the file system, the
    [PbenchTarBall] and [es_index] of the indexer, the [Report], the
    [quarantine] and [rename_tb_link] helpers) are given by an environment
    of oracles, [Env]; the calls the driver makes to them are recorded, in
    order, as a trace of events. *)

From Stdlib Require Import ZArith List String Ascii Bool Lia.
From Stdlib Require Import Sorted Permutation DecimalString OrderedTypeEx.
From Stdlib Require Import Decimal DecimalPos DecimalZ.
Import ListNotations.

Open Scope string_scope.
Open Scope Z_scope.

(** ** Paths: the functions of [os.path] (posixpath) the driver uses *)

Module PosixPath.

Definition sep : ascii := "/"%char.

Definition is_sep (c : ascii) : bool := Ascii.eqb c sep.

(** [rsplit p] is [(p[:i], p[i:])] for [i = p.rfind("/") + 1]. *)
Fixpoint rsplit (p : string) : string * string :=
  match p with
  | EmptyString => (EmptyString, EmptyString)
  | String c rest =>
      match rsplit rest with
      | (EmptyString, t) =>
          if is_sep c then (String c EmptyString, t)
          else (EmptyString, String c t)
      | (h, t) => (String c h, t)
      end
  end.

(** [all_sep s] is [s == sep * len(s)]. *)
Fixpoint all_sep (s : string) : bool :=
  match s with
  | EmptyString => true
  | String c rest => is_sep c && all_sep rest
  end.

(** [s.rstrip("/")] *)
Fixpoint rstrip (s : string) : string :=
  match s with
  | EmptyString => EmptyString
  | String c rest =>
      match rstrip rest with
      | EmptyString => if is_sep c then EmptyString else String c EmptyString
      | r => String c r
      end
  end.

Definition is_empty (s : string) : bool :=
  match s with EmptyString => true | _ => false end.

(** [os.path.dirname] *)
Definition dirname (p : string) : string :=
  let head := fst (rsplit p) in
  if negb (is_empty head) && negb (all_sep head) then rstrip head else head.

(** [os.path.basename] *)
Definition basename (p : string) : string := snd (rsplit p).

Definition startswith_sep (b : string) : bool :=
  match b with
  | String c _ => is_sep c
  | EmptyString => false
  end.

Fixpoint endswith_sep (a : string) : bool :=
  match a with
  | EmptyString => false
  | String c EmptyString => is_sep c
  | String _ rest => endswith_sep rest
  end.

(** One round of the loop of [os.path.join]. *)
Definition join2 (path b : string) : string :=
  if startswith_sep b then b
  else if is_empty path || endswith_sep path then path ++ b
  else path ++ "/" ++ b.

(** [os.path.join(a, *p)] *)
Definition join (a : string) (p : list string) : string :=
  fold_left join2 p a.

(** No separator occurs in [s]: the names a wildcard of a glob
    pattern matches. *)
Fixpoint no_sep (s : string) : bool :=
  match s with
  | EmptyString => true
  | String c rest => negb (is_sep c) && no_sep rest
  end.

End PosixPath.

Import PosixPath.

(** ** Options, link names *)

(** The attributes of the [options] argument of [main].  [cfg_name] is
    [None] when neither the command line nor the environment names a
    configuration file. *)
Record Options := {
  cfg_name : option string;
  dump_index_patterns : bool;
  dump_templates : bool;
  index_tool_data : bool;
  re_index : bool
}.

(** [not options.cfg_name] *)
Definition cfg_name_missing (o : Options) : bool :=
  match cfg_name o with
  | None => true
  | Some s => is_empty s
  end.

Definition _re_idx (o : Options) : string :=
  if re_index o then "RE-" else "".

Definition linksrc (o : Options) : string :=
  if index_tool_data o then "TO-INDEX-TOOL"
  else "TO-" ++ _re_idx o ++ "INDEX".

Definition linkdest (o : Options) : string :=
  if index_tool_data o then "INDEXED" else "TO-INDEX-TOOL".

Definition linkerrdest : string := "WONT-INDEX".

(** [f"{n:d}"] *)
Definition fmt_d (n : Z) : string := NilZero.string_of_int (Z.to_int n).

(** ** The environment *)

(** The result of a call that the driver guards with [except OSError]
    inside the discovery loop; anything else it raises reaches the
    [except Exception] around the loop. *)
Inductive io_outcome (A : Type) : Type :=
| IoOk (a : A)
| IoOSError
| IoUnexpected.
Arguments IoOk {A} a.
Arguments IoOSError {A}.
Arguments IoUnexpected {A}.

(** How the construction of the [IdxContext] ends. *)
Inductive init_outcome : Type :=
| InitOk
| InitConfigFileError
| InitConfigParserError
| InitBadConfig
| InitJsonFileError
| InitOtherException.

(** How [idxctx.templates.update_templates] ends. *)
Inductive templ_outcome : Type :=
| TemplOk
| TemplTemplateError
| TemplOtherException.

(** The exception classes the [try] statement around the indexing of one
    tar ball tells apart; [OtherException] is any other subclass of
    [Exception]. *)
Inductive exn : Type :=
| UnsupportedTarballFormat
| BadDate
| FileNotFoundError
| BadMDLogFormat
| SosreportHostname
| TarError
| OtherException.

(** Where in the [try] block the exception is raised: by the
    [PbenchTarBall(...)] call, when [ptb] is still [None], or later,
    when [ptb] is bound to the tar ball object. *)
Inductive stage : Type :=
| PtbNone
| PtbBound.

(** The tuple [es_index] returns. *)
Record es_result := {
  beg : Z;
  end_ : Z;
  successes : Z;
  duplicates : Z;
  failures : Z;
  retries : Z
}.

(** How the [try] block (open the tar ball, make the actions, open the
    indexing errors file, [es_index]) ends. *)
Inductive try_outcome : Type :=
| Raises (st : stage) (e : exn)
| Returns (r : es_result).

(** How [os.path.getsize(ie_filename)] ends. *)
Inductive ie_outcome : Type :=
| IeSize (n : Z)
| IeFileNotFound
| IeOtherException.

Record Env := {
  idxctx_init : init_outcome;
  (** the [try] block that checks the directories *)
  setup_raises : bool;
  ARCHIVE_rp : string;
  ARCHIVE_isdir : bool;
  INCOMING_rp : string;
  INCOMING_isdir : bool;
  qdir : string;
  qdir_isdir : bool;
  (** discovery *)
  iglob : string -> list string;
  realpath : string -> io_outcome string;
  isfile : string -> bool;
  getsize : string -> io_outcome Z;
  (** templates and reports *)
  update_templates : templ_outcome;
  post_start : option string;
  post_errors_raises : string -> bool;
  post_final_raises : bool;
  (** [tempfile.TemporaryDirectory(...)] raises *)
  tmpdir_raises : bool;
  (** the writing of the list of the tar balls raises *)
  list_file_raises : bool;
  (** indexing of one tar ball: tool data only?, the link, the
      directory of the unpacked tar ball *)
  try_block : bool -> string -> string -> try_outcome;
  ie_getsize : string -> ie_outcome;
  (** [rename_tb_link tb dest] *)
  rename_raises : string -> string -> bool
}.

(** ** Events *)

Inductive ledger : Type :=
| Indexed
| Erred
| Skipped.

(** The calls the driver makes to its collaborators.  [quarantine]
    returns to the discovery loop (the quarantine gate raises nothing
    past its boundary); [EvPostStatus] tells whether the posting
    returned; [EvPbenchTarBall] is the start of the [try] block of the
    loop body; [EvLedger] is a line printed to a ledger file and
    [EvRename] a call of [rename_tb_link], which may raise
    ([rename_raises]). *)
Inductive event : Type :=
| EvDumpIdxPatterns
| EvDumpTemplates
| EvQuarantine (tb : string)
| EvUpdateTemplates
| EvPostStatus (kind : string) (posted : bool)
| EvPbenchTarBall (tb : string)
| EvLedger (l : ledger) (tb : string)
| EvRename (tb dest : string).

(** The value of a run: [main] returns a status, or an exception leaves
    it. *)
Inductive run_result : Type :=
| Return (status : Z)
| Propagates.

(** ** Discovery of the tar balls to index *)

(** An entry of [tarballs]: [(size, controller, tb)]. *)
Definition tarball : Type := Z * string * string.

Definition tb_size (t : tarball) : Z := fst (fst t).
Definition tb_controller (t : tarball) : string := snd (fst t).
Definition tb_path (t : tarball) : string := snd t.

(** What the body of the discovery loop decides for one link. *)
Inductive verdict : Type :=
| Accepted (t : tarball)
| Quarantined
| Unexpected.

(** The body of [for tb in glob.iglob(tb_glob)]. *)
Definition gate (env : Env) (tb : string) : verdict :=
  match realpath env tb with
  | IoUnexpected => Unexpected
  | IoOSError => Quarantined
  | IoOk rp =>
      let controller_path := dirname rp in
      let controller := basename controller_path in
      let archive_path := dirname controller_path in
      if negb (archive_path =? ARCHIVE_rp env)%string then Quarantined
      else if negb (isfile env (rp ++ ".md5")) then Quarantined
      else
        match getsize env rp with
        | IoUnexpected => Unexpected
        | IoOSError => Quarantined
        | IoOk size => Accepted (size, controller, tb)
        end
  end.

(** The discovery loop over the links the glob yields: the calls to
    [quarantine] it makes and, unless an unexpected exception ends it,
    the list [tarballs] it builds. *)
Fixpoint scan (env : Env) (tbs : list string)
  : list event * option (list tarball) :=
  match tbs with
  | [] => ([], Some [])
  | tb :: rest =>
      match gate env tb with
      | Unexpected => ([], None)
      | Quarantined =>
          let '(tr, r) := scan env rest in (EvQuarantine tb :: tr, r)
      | Accepted t =>
          let '(tr, r) := scan env rest in (tr, option_map (cons t) r)
      end
  end.

(** One of the four checks on a link fails: the link does not resolve;
    the directory above the controller of the resolved path is not the
    archive; there is no [.md5] file next to the resolved path; the size
    of the resolved path cannot be fetched. *)
Definition gate_check_fails (env : Env) (tb : string) : bool :=
  match realpath env tb with
  | IoOSError => true
  | IoUnexpected => false
  | IoOk rp =>
      negb (dirname (dirname rp) =? ARCHIVE_rp env)%string
      || negb (isfile env (rp ++ ".md5"))
      || match getsize env rp with
         | IoOSError => true
         | _ => false
         end
  end.

Definition tb_glob (o : Options) (env : Env) : string :=
  join (ARCHIVE_rp env) ["*"; linksrc o; "*.tar.xz"].

Definition discover (o : Options) (env : Env)
  : list event * option (list tarball) :=
  scan env (iglob env (tb_glob o env)).

(** ** [sorted(tarballs)] *)

(** The order of Python on tuples [(int, str, str)]: the first
    component that differs decides.  Strings are compared character by
    character, by code. *)
Definition tarball_compare (a b : tarball) : comparison :=
  let '(s1, c1, p1) := a in
  let '(s2, c2, p2) := b in
  match Z.compare s1 s2 with
  | Eq =>
      match String.compare c1 c2 with
      | Eq => String.compare p1 p2
      | c => c
      end
  | c => c
  end.

Definition tarball_leb (a b : tarball) : bool :=
  match tarball_compare a b with
  | Gt => false
  | _ => true
  end.

Fixpoint insert (x : tarball) (l : list tarball) : list tarball :=
  match l with
  | [] => [x]
  | y :: l' => if tarball_leb x y then x :: l else y :: insert x l'
  end.

(** [sorted] is a stable sort; on a total order every stable sort
    gives the same list. *)
Definition sorted (l : list tarball) : list tarball :=
  fold_right insert [] l.

(** [a <= b] on the tuples. *)
Definition tarball_le (a b : tarball) : Prop := tarball_leb a b = true.

(** The order of the tuples spelled out: by size; on equal sizes by
    controller; on equal sizes and controllers by path. *)
Definition size_controller_path_le (a b : tarball) : Prop :=
  tb_size a < tb_size b
  \/ (tb_size a = tb_size b
      /\ (String.ltb (tb_controller a) (tb_controller b) = true
          \/ (tb_controller a = tb_controller b
              /\ String.leb (tb_path a) (tb_path b) = true))).

(** The order in the words of the specification: ascending by size,
    with the path as the tie-break. *)
Definition size_path_le (a b : tarball) : Prop :=
  tb_size a < tb_size b
  \/ (tb_size a = tb_size b
      /\ String.leb (tb_path a) (tb_path b) = true).

(** ** Indexing one tar ball *)

(** The [except] clauses and the [else] clause of the [try] statement
    around the indexing of a tar ball: the value of [tb_res], or [None]
    when an exception leaves the statement.  The handler of
    [tarfile.TarError] evaluates [ptb.extracted_root] for its log
    message before it assigns [tb_res]; on [ptb = None] that raises
    [AttributeError] inside the handler, which no clause of this
    statement catches. *)
Definition classify (out : try_outcome) : option Z :=
  match out with
  | Raises _ UnsupportedTarballFormat => Some 4
  | Raises _ BadDate => Some 5
  | Raises _ FileNotFoundError => Some 6
  | Raises _ BadMDLogFormat => Some 7
  | Raises _ SosreportHostname => Some 10
  | Raises PtbBound TarError => Some 11
  | Raises PtbNone TarError => None
  | Raises _ OtherException => Some 12
  | Returns r => Some (if failures r >? 0 then 1 else 0)
  end.

(** The variable [end] after the [try] statement: bound by the [else]
    clause, otherwise as the earlier tar balls left it. *)
Definition update_end (end_ts : option Z) (out : try_outcome) : option Z :=
  match out with
  | Returns r => Some (end_ r)
  | Raises _ _ => end_ts
  end.

(** The handling of the indexing errors file.  Every exception in it is
    caught, also the [NameError] of [tstos(end)] when [end] is not
    bound, so it only adds events. *)
Definition ie_report (env : Env) (end_ts : option Z) (tb : string)
  : list event :=
  match ie_getsize env tb with
  | IeFileNotFound => []
  | IeOtherException => []
  | IeSize ie_len =>
      if ie_len >? Z.of_nat (String.length tb) + 1 then
        match end_ts with
        | Some _ => [EvPostStatus "errors" (negb (post_errors_raises env tb))]
        | None => []
        end
      else []
  end.

(** The branches of the [if]/[elif] chain on [tb_res]. *)
Inductive branch : Type :=
| BrSuccess
| BrIndexFailures
| BrLogicBomb
| BrSkip
| BrError.

Definition select_branch (res tb_res : Z) : branch :=
  if tb_res =? 0 then BrSuccess
  else if tb_res =? 1 then BrIndexFailures
  else if (tb_res =? 2) || (tb_res =? 3) then BrLogicBomb
  else if (tb_res >=? 4) || (res <=? 11) then BrSkip
  else BrError.

(** What the loop body leaves behind: the next tar ball is taken, with
    the new binding of [end], or an exception leaves the loop. *)
Inductive item_result : Type :=
| ItemDone (end_ts : option Z)
| ItemAbort.

(** Append [tb] to a ledger file, then [rename_tb_link]. *)
Definition record_and_move (env : Env) (l : ledger) (tb dest : string)
  (end_ts : option Z) : list event * item_result :=
  ([EvLedger l tb; EvRename tb dest],
   if rename_raises env tb dest then ItemAbort else ItemDone end_ts).

Definition dispatch (o : Options) (env : Env) (res tb_res : Z)
  (tb controller_path : string) (end_ts : option Z)
  : list event * item_result :=
  match select_branch res tb_res with
  | BrSuccess =>
      record_and_move env Indexed tb
        (join controller_path [linkdest o]) end_ts
  | BrIndexFailures =>
      record_and_move env Erred tb
        (join controller_path [linkerrdest ++ ".1"]) end_ts
  | BrLogicBomb => ([], ItemAbort)
  | BrSkip =>
      record_and_move env Skipped tb
        (join controller_path [linkerrdest ++ "." ++ fmt_d tb_res]) end_ts
  | BrError =>
      record_and_move env Erred tb
        (join controller_path [linkerrdest]) end_ts
  end.

(** The body of [for size, controller, tb in tarballs]. *)
Definition process_item (o : Options) (env : Env) (res : Z)
  (end_ts : option Z) (t : tarball) : list event * item_result :=
  let '(size, controller, tb) := t in
  let linksrc_dir := dirname tb in
  let linksrc_dirname := basename linksrc_dir in
  if negb (linksrc_dirname =? linksrc o)%string then ([], ItemAbort)
  else
    let out :=
      try_block env (index_tool_data o) tb
        (join (INCOMING_rp env) [controller]) in
    match classify out with
    | None => ([EvPbenchTarBall tb], ItemAbort)
    | Some tb_res =>
        let end_ts' := update_end end_ts out in
        let controller_path := dirname linksrc_dir in
        let '(tr, r) :=
          dispatch o env res tb_res tb controller_path end_ts' in
        (EvPbenchTarBall tb :: (ie_report env end_ts' tb ++ tr)%list, r)
    end.

(** The loop; [true] when it ends without an exception. *)
Fixpoint process_items (o : Options) (env : Env) (res : Z)
  (end_ts : option Z) (ts : list tarball) : list event * bool :=
  match ts with
  | [] => ([], true)
  | t :: rest =>
      match process_item o env res end_ts t with
      | (tr, ItemAbort) => (tr, false)
      | (tr, ItemDone end_ts') =>
          let '(tr', ok) := process_items o env res end_ts' rest in
          ((tr ++ tr')%list, ok)
      end
  end.

(** ** [main] *)

(** The check of the configured directories. *)
Definition validate_environment (env : Env) : Z :=
  if setup_raises env then 12
  else
    let res := 0 in
    let res := if negb (ARCHIVE_isdir env) then 3 else res in
    let res := if negb (INCOMING_isdir env) then 3 else res in
    let res := if negb (qdir_isdir env) then 3 else res in
    res.

Definition ensure_templates (env : Env) : Z :=
  match update_templates env with
  | TemplTemplateError => 9
  | TemplOtherException => 12
  | TemplOk => 0
  end.

(** The last step of the [finally] clause: the report is posted with
    kind [status]; an exception of the posting is passed over. *)
Definition finalize (env : Env) : list event :=
  [EvPostStatus "status" (negb (post_final_raises env))].

(** [main] up to the construction of the [Report]: an early [return],
    or the sorted list of tar balls to index; with the events so far. *)
Definition prepare (o : Options) (env : Env)
  : (run_result + list tarball) * list event :=
  if cfg_name_missing o then (inl (Return 2), [])
  else
    match idxctx_init env with
    | InitConfigFileError | InitConfigParserError => (inl (Return 2), [])
    | InitBadConfig => (inl (Return 3), [])
    | InitJsonFileError => (inl (Return 8), [])
    | InitOtherException => (inl Propagates, [])
    | InitOk =>
        if dump_index_patterns o then (inl (Return 0), [EvDumpIdxPatterns])
        else if dump_templates o then (inl (Return 0), [EvDumpTemplates])
        else
          let res := validate_environment env in
          if negb (res =? 0) then (inl (Return res), [])
          else
            match discover o env with
            | (tr_q, None) => (inl (Return 12), tr_q)
            | (tr_q, Some []) => (inl (Return 0), tr_q)
            | (tr_q, Some tarballs) =>
                let tarballs := sorted tarballs in
                let res := ensure_templates env in
                if negb (res =? 0) then
                  (inl (Return res), (tr_q ++ [EvUpdateTemplates])%list)
                else (inr tarballs, (tr_q ++ [EvUpdateTemplates])%list)
            end
    end.

(** [main] from the construction of the [Report] on; [res] is [0]
    here.  The temporary directory is made outside every [try]: an
    exception of [tempfile.TemporaryDirectory] leaves [main].  An
    exception while the list of the tar balls is written is caught
    ([res = 12]), but [indexed], [erred] and [skipped] are not bound
    yet, so [_count_lines(indexed)] in the [finally] clause raises
    and that exception leaves [main], before the final status is
    posted. *)
Definition index_tarballs (o : Options) (env : Env) (res : Z)
  (tarballs : list tarball) : run_result * list event :=
  match post_start env with
  | None => (Return 12, [EvPostStatus "start" false])
  | Some tracking_id =>
      if tmpdir_raises env then
        (Propagates, [EvPostStatus "start" true])
      else if list_file_raises env then
        (Propagates, [EvPostStatus "start" true])
      else
        let '(tr_i, ok) := process_items o env res None tarballs in
        let res := if ok then 0 else 12 in
        (Return res,
         (EvPostStatus "start" true :: tr_i ++ finalize env)%list)
  end.

Definition main (o : Options) (env : Env) : run_result * list event :=
  match prepare o env with
  | (inl r, tr) => (r, tr)
  | (inr tarballs, tr) =>
      let '(r, tr') := index_tarballs o env 0 tarballs in
      (r, (tr ++ tr')%list)
  end.

(** ** Reading a trace *)

(** The ledgers that receive [tb], in order. *)
Definition ledger_entries (tb : string) (tr : list event) : list ledger :=
  flat_map
    (fun e =>
       match e with
       | EvLedger l tb' => if (tb' =? tb)%string then [l] else []
       | _ => []
       end) tr.

(** The directories [rename_tb_link] is asked to move [tb] to, in
    order. *)
Definition moves (tb : string) (tr : list event) : list string :=
  flat_map
    (fun e =>
       match e with
       | EvRename tb' dest => if (tb' =? tb)%string then [dest] else []
       | _ => []
       end) tr.

(** The events of the loop over the tar balls. *)
Definition is_item_event (e : event) : bool :=
  match e with
  | EvPbenchTarBall _ | EvLedger _ _ | EvRename _ _ => true
  | _ => false
  end.

(** The tar balls for which the [try] block is entered, in order. *)
Definition opened (tr : list event) : list string :=
  flat_map
    (fun e => match e with EvPbenchTarBall tb => [tb] | _ => [] end) tr.

(** The links handed to [quarantine], in order. *)
Definition quarantined (tr : list event) : list string :=
  flat_map
    (fun e => match e with EvQuarantine tb => [tb] | _ => [] end) tr.

Definition ledger_eqb (a b : ledger) : bool :=
  match a, b with
  | Indexed, Indexed | Erred, Erred | Skipped, Skipped => true
  | _, _ => false
  end.

(** The paths printed to the file of ledger [l], in order. *)
Definition ledger_lines (l : ledger) (tr : list event) : list string :=
  flat_map
    (fun e =>
       match e with
       | EvLedger l' tb => if ledger_eqb l' l then [tb] else []
       | _ => []
       end) tr.

(** The answers of the postings of kind [kind], in order. *)
Definition status_posts (kind : string) (tr : list event) : list bool :=
  flat_map
    (fun e =>
       match e with
       | EvPostStatus k posted => if (k =? kind)%string then [posted] else []
       | _ => []
       end) tr.

(** The postings of a status. *)
Definition is_post (e : event) : bool :=
  match e with
  | EvPostStatus _ _ => true
  | _ => false
  end.

(** The events the loop over the tar balls can make: the events of a
    tar ball and the postings of kind [errors]. *)
Definition is_loop_event (e : event) : bool :=
  match e with
  | EvPostStatus kind _ => (kind =? "errors")%string
  | _ => is_item_event e
  end.

(** ** The ledger files and [_count_lines] *)

Definition LF : ascii := "010"%char.
Definition CR : ascii := "013"%char.

(** The number of lines the iteration over a text file yields, for the
    rest [s] of its content: a line ends with a line feed, a carriage
    return, or a carriage return and a line feed; text after the last
    line end is a line.  [open_line]: the line at hand has text;
    [after_cr]: the character before was a carriage return. *)
Fixpoint count_text_lines (open_line after_cr : bool) (s : string) : nat :=
  match s with
  | EmptyString => if open_line then 1%nat else 0%nat
  | String c rest =>
      if Ascii.eqb c LF then
        ((if after_cr then 0 else 1) + count_text_lines false false rest)%nat
      else if Ascii.eqb c CR then
        S (count_text_lines false true rest)
      else count_text_lines true false rest
  end.

(** [_count_lines]; [None] is a file that does not exist
    ([FileNotFoundError]). *)
Definition _count_lines (file : option string) : nat :=
  match file with
  | None => 0%nat
  | Some content => count_text_lines false false content
  end.

(** [print(tb, file=fp)] *)
Definition print_line (tb : string) : string := tb ++ String LF EmptyString.

(** The ledger file after the events [tr]: every entry opens the file
    for appending, in the fresh temporary directory of the run, and
    prints one path; without an entry there is no file. *)
Definition ledger_file (l : ledger) (tr : list event) : option string :=
  match ledger_lines l tr with
  | [] => None
  | ls => Some (fold_right (fun tb acc => print_line tb ++ acc) "" ls)
  end.

(** Neither a line feed nor a carriage return occurs in [s]. *)
Fixpoint no_linebreak (s : string) : bool :=
  match s with
  | EmptyString => true
  | String c rest =>
      negb (Ascii.eqb c LF) && negb (Ascii.eqb c CR) && no_linebreak rest
  end.

(** The counts [idx], [skp], [err] of the [finally] clause. *)
Definition report_counts (tr : list event) : nat * nat * nat :=
  (_count_lines (ledger_file Indexed tr),
   _count_lines (ledger_file Skipped tr),
   _count_lines (ledger_file Erred tr)).

(** The number of paths printed to the three ledger files. *)
Definition printed (tr : list event) : nat :=
  (List.length (ledger_lines Indexed tr)
   + List.length (ledger_lines Skipped tr)
   + List.length (ledger_lines Erred tr))%nat.

(** ** The name of the run and the subject of the report *)

Definition _name_suf (o : Options) : string :=
  if index_tool_data o then "-tool-data" else "".

Definition _name_re (o : Options) : string :=
  if re_index o then "-re" else "".

(** [name = f"{name}{_name_re}{_name_suf}"] *)
Definition run_label (o : Options) (name : string) : string :=
  name ++ _name_re o ++ _name_suf o.

Definition fmt_nat (n : nat) : string := fmt_d (Z.of_nat n).

(** The subject line [subj]; [ts] is [idxctx.TS]. *)
Definition subject (name ts : string) (idx skp err : nat) : string :=
  if (0 <? err)%nat then
    if (0 <? skp)%nat then
      name ++ "." ++ ts ++ " - Indexed " ++ fmt_nat idx
        ++ " results, skipped " ++ fmt_nat skp
        ++ " results, w/ " ++ fmt_nat err ++ " errors"
    else
      name ++ "." ++ ts ++ " - Indexed " ++ fmt_nat idx
        ++ " results, w/ " ++ fmt_nat err ++ " errors"
  else
    if (0 <? skp)%nat then
      name ++ "." ++ ts ++ " - Indexed " ++ fmt_nat idx
        ++ " results, skipped " ++ fmt_nat skp ++ " results"
    else
      name ++ "." ++ ts ++ " - Indexed " ++ fmt_nat idx ++ " results".

(** Every character of [s] is a decimal digit. *)
Fixpoint all_digits (s : string) : bool :=
  match s with
  | EmptyString => true
  | String c rest =>
      (48 <=? N_of_ascii c)%N && (N_of_ascii c <=? 57)%N && all_digits rest
  end.

(** ** The command *)

(** [s[-3:]] *)
Definition last3 (s : string) : string :=
  substring (String.length s - 3) 3 s.

(** [s[:-3]] *)
Definition drop_last3 (s : string) : string :=
  substring 0 (String.length s - 3) s.

(** [run_name], from [sys.argv[0]]. *)
Definition run_name (argv0 : string) : string :=
  let run_name := basename argv0 in
  if negb (last3 run_name =? ".py")%string then run_name
  else drop_last3 run_name.

(** How [parser.parse_args()] ends: with the parsed options, or with
    the [sys.exit(status)] of the parser (status 2 for a command line
    it does not accept, status 0 after the help text). *)
Inductive parse_outcome : Type :=
| Parsed (o : Options)
| ParserExits (status : Z).

(** The exit status of the command and the calls it makes:
    [sys.exit(1)] on another command name; otherwise the arguments
    are parsed and, unless the parser exits,
    [sys.exit(main(parsed, run_name))]; an exception that leaves
    [main] ends the interpreter with status 1. *)
Definition command (argv0 : string) (args : parse_outcome) (env : Env)
  : Z * list event :=
  if negb (run_name argv0 =? "pbench-index")%string then (1, [])
  else
    match args with
    | ParserExits status => (status, [])
    | Parsed o =>
        match main o env with
        | (Return status, tr) => (status, tr)
        | (Propagates, tr) => (1, tr)
        end
    end.

(** [env] with other answers of the handling of the indexing errors
    file. *)
Definition with_ie_handling (g : string -> ie_outcome)
  (p : string -> bool) (env : Env) : Env :=
  {| idxctx_init := idxctx_init env;
     setup_raises := setup_raises env;
     ARCHIVE_rp := ARCHIVE_rp env;
     ARCHIVE_isdir := ARCHIVE_isdir env;
     INCOMING_rp := INCOMING_rp env;
     INCOMING_isdir := INCOMING_isdir env;
     qdir := qdir env;
     qdir_isdir := qdir_isdir env;
     iglob := iglob env;
     realpath := realpath env;
     isfile := isfile env;
     getsize := getsize env;
     update_templates := update_templates env;
     post_start := post_start env;
     post_errors_raises := p;
     post_final_raises := post_final_raises env;
     tmpdir_raises := tmpdir_raises env;
     list_file_raises := list_file_raises env;
     try_block := try_block env;
     ie_getsize := g;
     rename_raises := rename_raises env |}.

(** ** Example runs *)

Definition opts_default : Options :=
  {| cfg_name := Some "pbench-server.cfg";
     dump_index_patterns := false;
     dump_templates := false;
     index_tool_data := false;
     re_index := false |}.

Definition opts_tool_data : Options :=
  {| cfg_name := Some "pbench-server.cfg";
     dump_index_patterns := false;
     dump_templates := false;
     index_tool_data := true;
     re_index := false |}.

Definition es_clean : es_result :=
  {| beg := 10; end_ := 12; successes := 7; duplicates := 0;
     failures := 0; retries := 0 |}.

Definition es_failing : es_result :=
  {| beg := 10; end_ := 12; successes := 5; duplicates := 0;
     failures := 2; retries := 1 |}.

(** An archive [/A] whose queued links are [links]; a link
    [/A/<controller>/<state>/<name>] points to [/A/<controller>/<name>].
    The glob yields the links whose state directory is the one of the
    pattern. *)
Definition demo_env (links : list string) (md5 : string -> bool)
  (sz : string -> io_outcome Z) (tryb : string -> try_outcome)
  (start : option string) : Env :=
  {| idxctx_init := InitOk;
     setup_raises := false;
     ARCHIVE_rp := "/A";
     ARCHIVE_isdir := true;
     INCOMING_rp := "/I";
     INCOMING_isdir := true;
     qdir := "/Q";
     qdir_isdir := true;
     iglob := fun pat =>
       filter
         (fun tb =>
            (pat =? join "/A" ["*"; basename (dirname tb); "*.tar.xz"])%string)
         links;
     realpath := fun tb => IoOk (join (dirname (dirname tb)) [basename tb]);
     isfile := md5;
     getsize := sz;
     update_templates := TemplOk;
     post_start := start;
     post_errors_raises := fun _ => false;
     post_final_raises := false;
     tmpdir_raises := false;
     list_file_raises := false;
     try_block := fun _ tb _ => tryb tb;
     ie_getsize := fun _ => IeSize 0;
     rename_raises := fun _ _ => false |}.

(** [env] with another answer of the final status posting. *)
Definition with_post_final_raises (b : bool) (env : Env) : Env :=
  {| idxctx_init := idxctx_init env;
     setup_raises := setup_raises env;
     ARCHIVE_rp := ARCHIVE_rp env;
     ARCHIVE_isdir := ARCHIVE_isdir env;
     INCOMING_rp := INCOMING_rp env;
     INCOMING_isdir := INCOMING_isdir env;
     qdir := qdir env;
     qdir_isdir := qdir_isdir env;
     iglob := iglob env;
     realpath := realpath env;
     isfile := isfile env;
     getsize := getsize env;
     update_templates := update_templates env;
     post_start := post_start env;
     post_errors_raises := post_errors_raises env;
     post_final_raises := b;
     tmpdir_raises := tmpdir_raises env;
     list_file_raises := list_file_raises env;
     try_block := try_block env;
     ie_getsize := ie_getsize env;
     rename_raises := rename_raises env |}.

Definition tb_a : string := "/A/host/TO-INDEX/a.tar.xz".
Definition tb_b : string := "/A/host-1/TO-INDEX/a.tar.xz".
Definition tb_tool : string := "/A/host/TO-INDEX-TOOL/a.tar.xz".

(** One tar ball of 100 bytes that indexes without failures. *)
Definition env_clean : Env :=
  demo_env [tb_a; tb_tool] (fun _ => true) (fun _ => IoOk 100)
    (fun _ => Returns es_clean) (Some "tracking-id").

(** One tar ball for which [es_index] reports failures. *)
Definition env_failing : Env :=
  demo_env [tb_a] (fun _ => true) (fun _ => IoOk 100)
    (fun _ => Returns es_failing) (Some "tracking-id").

(** The size of the tar ball behind [tb_a] is 100, of any other 200. *)
Definition demo_sizes (rp : string) : io_outcome Z :=
  if (rp =? "/A/host/a.tar.xz")%string then IoOk 100 else IoOk 200.

(** Two tar balls; the archive behind [tb_a] is corrupt and
    [PbenchTarBall(...)] raises [tarfile.TarError] for it, the other
    one indexes without failures. *)
Definition env_corrupt : Env :=
  demo_env [tb_a; tb_b] (fun _ => true) demo_sizes
    (fun tb =>
       if (tb =? tb_a)%string then Raises PtbNone TarError
       else Returns es_clean)
    (Some "tracking-id").

(** As [env_corrupt], with the [TarError] raised once [ptb] is bound. *)
Definition env_corrupt_late : Env :=
  demo_env [tb_a; tb_b] (fun _ => true) demo_sizes
    (fun tb =>
       if (tb =? tb_a)%string then Raises PtbBound TarError
       else Returns es_clean)
    (Some "tracking-id").

(** Two tar balls of 100 bytes under the controllers [host] and
    [host-1]. *)
Definition env_tie : Env :=
  demo_env [tb_a; tb_b] (fun _ => true) (fun _ => IoOk 100)
    (fun _ => Returns es_clean) (Some "tracking-id").

(** Two links; there is no [.md5] file for the tar ball behind
    [tb_a]. *)
Definition env_no_md5 : Env :=
  demo_env [tb_a; tb_b]
    (fun f => negb (f =? "/A/host/a.tar.xz.md5")%string)
    demo_sizes (fun _ => Returns es_clean) (Some "tracking-id").

(** One link, without [.md5] file. *)
Definition env_only_bad : Env :=
  demo_env [tb_a]
    (fun f => negb (f =? "/A/host/a.tar.xz.md5")%string)
    demo_sizes (fun _ => Returns es_clean) (Some "tracking-id").

(** The start of the run cannot be posted. *)
Definition env_no_start : Env :=
  demo_env [tb_a; tb_b] (fun _ => true) demo_sizes
    (fun _ => Returns es_clean) None.

(** No configuration file is named. *)
Definition opts_no_config : Options :=
  {| cfg_name := None;
     dump_index_patterns := false;
     dump_templates := false;
     index_tool_data := false;
     re_index := false |}.

(** The archive of the configuration is no directory. *)
Definition env_bad_archive : Env :=
  {| idxctx_init := InitOk;
     setup_raises := false;
     ARCHIVE_rp := "/A";
     ARCHIVE_isdir := false;
     INCOMING_rp := "/I";
     INCOMING_isdir := true;
     qdir := "/Q";
     qdir_isdir := true;
     iglob := fun _ => [tb_a];
     realpath := fun tb => IoOk (join (dirname (dirname tb)) [basename tb]);
     isfile := fun _ => true;
     getsize := fun _ => IoOk 100;
     update_templates := TemplOk;
     post_start := Some "tracking-id";
     post_errors_raises := fun _ => false;
     post_final_raises := false;
     tmpdir_raises := false;
     list_file_raises := false;
     try_block := fun _ _ _ => Returns es_clean;
     ie_getsize := fun _ => IeSize 0;
     rename_raises := fun _ _ => false |}.

(** Two links; the size of the tar ball behind [tb_b] cannot be
    fetched, for a reason other than an [OSError]. *)
Definition env_scan_error : Env :=
  demo_env [tb_a; tb_b]
    (fun f => negb (f =? "/A/host/a.tar.xz.md5")%string)
    (fun rp =>
       if (rp =? "/A/host-1/a.tar.xz")%string then IoUnexpected
       else IoOk 100)
    (fun _ => Returns es_clean) (Some "tracking-id").

(** The update of the templates ends with a [TemplateError]. *)
Definition env_template_error : Env :=
  {| idxctx_init := InitOk;
     setup_raises := false;
     ARCHIVE_rp := "/A";
     ARCHIVE_isdir := true;
     INCOMING_rp := "/I";
     INCOMING_isdir := true;
     qdir := "/Q";
     qdir_isdir := true;
     iglob := fun _ => [tb_a];
     realpath := fun tb => IoOk (join (dirname (dirname tb)) [basename tb]);
     isfile := fun _ => true;
     getsize := fun _ => IoOk 100;
     update_templates := TemplTemplateError;
     post_start := Some "tracking-id";
     post_errors_raises := fun _ => false;
     post_final_raises := false;
     tmpdir_raises := false;
     list_file_raises := false;
     try_block := fun _ _ _ => Returns es_clean;
     ie_getsize := fun _ => IeSize 0;
     rename_raises := fun _ _ => false |}.

(** Two tar balls with a bad date; each leaves an indexing errors
    file of 1000 bytes. *)
Definition env_all_raise : Env :=
  with_ie_handling (fun _ => IeSize 1000) (fun _ => false)
    (demo_env [tb_a; tb_b] (fun _ => true) demo_sizes
       (fun _ => Raises PtbBound BadDate) (Some "tracking-id")).

(** The first tar ball is indexed, the second has a bad date; each
    leaves an indexing errors file of 1000 bytes. *)
Definition env_second_raises : Env :=
  with_ie_handling (fun _ => IeSize 1000) (fun _ => false)
    (demo_env [tb_a; tb_b] (fun _ => true) demo_sizes
       (fun tb =>
          if (tb =? tb_a)%string then Returns es_clean
          else Raises PtbBound BadDate)
       (Some "tracking-id")).

(** The link of [tb_a] cannot be moved. *)
Definition env_rename_fails : Env :=
  {| idxctx_init := InitOk;
     setup_raises := false;
     ARCHIVE_rp := "/A";
     ARCHIVE_isdir := true;
     INCOMING_rp := "/I";
     INCOMING_isdir := true;
     qdir := "/Q";
     qdir_isdir := true;
     iglob := fun _ => [tb_a; tb_b];
     realpath := fun tb => IoOk (join (dirname (dirname tb)) [basename tb]);
     isfile := fun _ => true;
     getsize := demo_sizes;
     update_templates := TemplOk;
     post_start := Some "tracking-id";
     post_errors_raises := fun _ => false;
     post_final_raises := false;
     tmpdir_raises := false;
     list_file_raises := false;
     try_block := fun _ _ _ => Returns es_clean;
     ie_getsize := fun _ => IeSize 0;
     rename_raises := fun tb _ => (tb =? tb_a)%string |}.

(** The list of the tar balls cannot be written. *)
Definition env_no_list_file : Env :=
  {| idxctx_init := InitOk;
     setup_raises := false;
     ARCHIVE_rp := "/A";
     ARCHIVE_isdir := true;
     INCOMING_rp := "/I";
     INCOMING_isdir := true;
     qdir := "/Q";
     qdir_isdir := true;
     iglob := fun _ => [tb_a; tb_b];
     realpath := fun tb => IoOk (join (dirname (dirname tb)) [basename tb]);
     isfile := fun _ => true;
     getsize := demo_sizes;
     update_templates := TemplOk;
     post_start := Some "tracking-id";
     post_errors_raises := fun _ => false;
     post_final_raises := false;
     tmpdir_raises := false;
     list_file_raises := true;
     try_block := fun _ _ _ => Returns es_clean;
     ie_getsize := fun _ => IeSize 0;
     rename_raises := fun _ _ => false |}.

(** * Properties *)

(** ** Paths *)

Section PathFacts.

Lemma append_inj_l (x a b : string) : x ++ a = x ++ b -> a = b.
Proof.
  induction x as [| c x IH]; simpl; intros H.
  - exact H.
  - injection H as H. auto.
Qed.

Lemma append_assoc (x y z : string) : (x ++ y) ++ z = x ++ (y ++ z).
Proof.
  induction x as [| c x IH]; simpl; [reflexivity | now rewrite IH].
Qed.

Lemma rsplit_no_sep (y : string) :
  no_sep y = true -> rsplit y = (EmptyString, y).
Proof.
  induction y as [| c y IH]; simpl; intros H.
  - reflexivity.
  - apply andb_true_iff in H as [Hc Hy].
    rewrite (IH Hy).
    apply negb_true_iff in Hc. now rewrite Hc.
Qed.

(** The last separator splits the path. *)
Lemma rsplit_app_sep (x y : string) :
  no_sep y = true ->
  rsplit (x ++ String sep y) = (x ++ String sep EmptyString, y).
Proof.
  intros Hy.
  induction x as [| c x IH]; simpl.
  - now rewrite (rsplit_no_sep y Hy).
  - rewrite IH.
    destruct x; reflexivity.
Qed.

Lemma basename_app_sep (x y : string) :
  no_sep y = true -> basename (x ++ String sep y) = y.
Proof.
  intros Hy. unfold basename. now rewrite rsplit_app_sep.
Qed.

Lemma rstrip_app_no_sep (x y : string) :
  no_sep y = true -> y <> EmptyString ->
  rstrip (x ++ y) = x ++ y.
Proof.
  intros Hy Hne.
  assert (Hr : rstrip y = y).
  { clear Hne. induction y as [| c y IH]; simpl in *; [reflexivity|].
    apply andb_true_iff in Hy as [Hc Hy].
    rewrite (IH Hy). apply negb_true_iff in Hc.
    destruct y; [now rewrite Hc | reflexivity]. }
  induction x as [| c x IH]; simpl.
  - exact Hr.
  - rewrite IH.
    destruct (x ++ y) eqn:E; [| reflexivity].
    destruct x; simpl in E; [congruence | discriminate].
Qed.

Lemma rstrip_sep_end (x : string) :
  rstrip (x ++ String sep EmptyString) = rstrip x.
Proof.
  induction x as [| c x IH]; simpl.
  - reflexivity.
  - now rewrite IH.
Qed.

Lemma all_sep_app (x y : string) :
  all_sep (x ++ y) = all_sep x && all_sep y.
Proof.
  induction x as [| c x IH]; simpl; [reflexivity|].
  now rewrite IH, andb_assoc.
Qed.

Lemma no_sep_not_all_sep (y : string) :
  no_sep y = true -> y <> EmptyString -> all_sep y = false.
Proof.
  destruct y as [| c y]; simpl; intros H Hne; [congruence|].
  apply andb_true_iff in H as [Hc _].
  apply negb_true_iff in Hc. now rewrite Hc.
Qed.

(** [dirname] of a path [x/l/f] whose last two components are plain
    names is [x/l]. *)
Lemma dirname_two_components (x l f : string) :
  no_sep l = true -> l <> EmptyString -> no_sep f = true ->
  dirname (x ++ String sep l ++ String sep f) = x ++ String sep l.
Proof.
  intros Hl Hne Hf.
  unfold dirname.
  replace (x ++ String sep l ++ String sep f)
    with ((x ++ String sep l) ++ String sep f)
    by (rewrite append_assoc; reflexivity).
  rewrite rsplit_app_sep by exact Hf.
  cbn [fst].
  assert (Hns : all_sep ((x ++ String sep l) ++ String sep EmptyString)
                = false).
  { rewrite !all_sep_app. cbn [all_sep].
    rewrite (no_sep_not_all_sep l Hl Hne).
    now rewrite !andb_false_r. }
  rewrite Hns.
  assert (Hemp : is_empty ((x ++ String sep l) ++ String sep EmptyString)
                 = false).
  { destruct x; reflexivity. }
  rewrite Hemp. cbn [negb andb].
  assert (Hfix : rstrip (x ++ String sep l) = x ++ String sep l).
  { replace (x ++ String sep l) with ((x ++ String sep EmptyString) ++ l)
      by (rewrite append_assoc; reflexivity).
    now apply rstrip_app_no_sep. }
  rewrite rstrip_sep_end.
  exact Hfix.
Qed.

(** The sanity check at the head of the loop body holds for every
    path of the shape the glob pattern
    [ARCHIVE/*/linksrc/*.tar.xz] matches. *)
Lemma glob_shape_sanity (x l f : string) :
  no_sep l = true -> l <> EmptyString -> no_sep f = true ->
  basename (dirname (x ++ String sep l ++ String sep f)) = l.
Proof.
  intros Hl Hne Hf.
  rewrite dirname_two_components by assumption.
  now apply basename_app_sep.
Qed.

Lemma no_sep_startswith (y : string) :
  no_sep y = true -> startswith_sep y = false.
Proof.
  destruct y as [| c y]; simpl; [reflexivity|].
  intros H. apply andb_true_iff in H as [Hc _].
  now apply negb_true_iff in Hc.
Qed.

Lemma endswith_sep_app_no_sep (x y : string) :
  no_sep y = true -> y <> EmptyString -> endswith_sep (x ++ y) = false.
Proof.
  intros Hy Hne.
  assert (Hend : endswith_sep y = false).
  { clear Hne. induction y as [| c y IH]; [reflexivity|].
    simpl in Hy. apply andb_true_iff in Hy as [Hc Hy].
    apply negb_true_iff in Hc.
    destruct y; simpl; [exact Hc | exact (IH Hy)]. }
  induction x as [| c x IH]; [exact Hend|].
  simpl. destruct (x ++ y) eqn:E; [| exact IH].
  destruct x; simpl in E; [congruence | discriminate].
Qed.

Lemma is_empty_app_r (x y : string) :
  y <> EmptyString -> is_empty (x ++ y) = false.
Proof.
  intros Hne. destruct x; simpl; [| reflexivity].
  destruct y; [congruence | reflexivity].
Qed.

(** [join2] onto a path that ends in a plain name puts a separator in
    between. *)
Lemma join2_after_name (x c b : string) :
  no_sep c = true -> c <> EmptyString -> no_sep b = true ->
  join2 (x ++ c) b = (x ++ c) ++ String sep b.
Proof.
  intros Hc Hne Hb. unfold join2.
  rewrite (no_sep_startswith b Hb).
  rewrite (is_empty_app_r x c Hne), (endswith_sep_app_no_sep x c Hc Hne).
  reflexivity.
Qed.

Lemma linksrc_plain (o : Options) :
  no_sep (linksrc o) = true /\ linksrc o <> EmptyString.
Proof.
  unfold linksrc, _re_idx.
  destruct (index_tool_data o), (re_index o); split;
    solve [reflexivity | discriminate].
Qed.

(** X18: the links the glob yields are the pattern
    [join ARCHIVE ["*"; linksrc; "*.tar.xz"]] with a name for each
    wildcard; in every mode they pass the sanity check at the head of
    the loop body, so that its assertion does not fail for them. *)
Lemma sanity_check_of_glob (o : Options) (archive c f : string) :
  no_sep c = true -> c <> EmptyString -> no_sep f = true ->
  basename (dirname (join archive [c; linksrc o; f])) = linksrc o.
Proof.
  intros Hc Hne Hf.
  destruct (linksrc_plain o) as [Hl Hlne].
  assert (Hx : exists x, join2 archive c = x ++ c).
  { unfold join2. rewrite (no_sep_startswith c Hc).
    destruct (is_empty archive || endswith_sep archive).
    - now exists archive.
    - exists (archive ++ String sep EmptyString).
      now rewrite append_assoc. }
  destruct Hx as [x Hx].
  unfold join. cbn [fold_left]. rewrite Hx.
  rewrite (join2_after_name x c (linksrc o) Hc Hne Hl).
  replace ((x ++ c) ++ String sep (linksrc o))
    with (((x ++ c) ++ String sep EmptyString) ++ linksrc o)
    by (rewrite !append_assoc; reflexivity).
  rewrite (join2_after_name _ (linksrc o) f Hl Hlne Hf).
  replace ((((x ++ c) ++ String sep EmptyString) ++ linksrc o)
             ++ String sep f)
    with ((x ++ c) ++ String sep (linksrc o) ++ String sep f)
    by (rewrite !append_assoc; reflexivity).
  now apply glob_shape_sanity.
Qed.

Lemma join_one (a b : string) : join a [b] = join2 a b.
Proof. reflexivity. Qed.

(** Two plain names give two destinations under one directory. *)
Lemma join_one_inj (a b b' : string) :
  startswith_sep b = false -> startswith_sep b' = false ->
  join a [b] = join a [b'] -> b = b'.
Proof.
  intros Hb Hb'. rewrite !join_one. unfold join2.
  rewrite Hb, Hb'.
  destruct (is_empty a || endswith_sep a); intros H.
  - now apply append_inj_l in H.
  - apply append_inj_l in H. now injection H.
Qed.

End PathFacts.

(** ** One tar ball *)

Section OneTarBall.

Variables (o : Options) (env : Env).

Lemma ie_report_no_item_event (end_ts : option Z) (tb : string) :
  Forall (fun e => is_item_event e = false) (ie_report env end_ts tb).
Proof.
  unfold ie_report.
  destruct (ie_getsize env tb); try constructor.
  destruct (_ >? _); try constructor.
  destruct end_ts; repeat constructor.
Qed.

Lemma ledger_entries_app (tb : string) (t1 t2 : list event) :
  ledger_entries tb (t1 ++ t2)%list
  = (ledger_entries tb t1 ++ ledger_entries tb t2)%list.
Proof. apply flat_map_app. Qed.

Lemma moves_app (tb : string) (t1 t2 : list event) :
  moves tb (t1 ++ t2)%list = (moves tb t1 ++ moves tb t2)%list.
Proof. apply flat_map_app. Qed.

Lemma no_item_event_ledger_entries (tb : string) (tr : list event) :
  Forall (fun e => is_item_event e = false) tr ->
  ledger_entries tb tr = [].
Proof.
  induction 1 as [| e tr He _ IH]; [reflexivity|].
  unfold ledger_entries in *. simpl. rewrite IH.
  destruct e; simpl in *; congruence.
Qed.

Lemma no_item_event_moves (tb : string) (tr : list event) :
  Forall (fun e => is_item_event e = false) tr ->
  moves tb tr = [].
Proof.
  induction 1 as [| e tr He _ IH]; [reflexivity|].
  unfold moves in *. simpl. rewrite IH.
  destruct e; simpl in *; congruence.
Qed.

(** The loop body for a tar ball that passes the sanity check and
    gets a status [tb_res]. *)
Lemma process_item_classified (res : Z) (end_ts : option Z)
  (size : Z) (controller tb : string) (tb_res : Z) :
  basename (dirname tb) = linksrc o ->
  classify (try_block env (index_tool_data o) tb
              (join (INCOMING_rp env) [controller])) = Some tb_res ->
  process_item o env res end_ts (size, controller, tb)
  = let end_ts' :=
      update_end end_ts
        (try_block env (index_tool_data o) tb
           (join (INCOMING_rp env) [controller])) in
    let '(tr, r) :=
      dispatch o env res tb_res tb (dirname (dirname tb)) end_ts' in
    (EvPbenchTarBall tb :: (ie_report env end_ts' tb ++ tr)%list, r).
Proof.
  intros Hsane Hcl. unfold process_item.
  rewrite Hsane, String.eqb_refl. cbn [negb].
  now rewrite Hcl.
Qed.

(** The events of a ledger entry followed by a move, around the
    events of the indexing errors file. *)
Lemma item_trace_entries (tb dest : string) (l : ledger)
  (pre : list event) :
  Forall (fun e => is_item_event e = false) pre ->
  let tr := EvPbenchTarBall tb
              :: (pre ++ [EvLedger l tb; EvRename tb dest])%list in
  ledger_entries tb tr = [l] /\ moves tb tr = [dest].
Proof.
  intros Hpre tr. subst tr.
  change (EvPbenchTarBall tb :: (pre ++ [EvLedger l tb; EvRename tb dest]))%list
    with ([EvPbenchTarBall tb] ++ pre
            ++ [EvLedger l tb; EvRename tb dest])%list.
  rewrite !ledger_entries_app, !moves_app.
  rewrite (no_item_event_ledger_entries tb pre Hpre).
  rewrite (no_item_event_moves tb pre Hpre).
  unfold ledger_entries, moves. simpl.
  rewrite String.eqb_refl. auto.
Qed.

End OneTarBall.

(** ** The move of a tar ball that was indexed *)

(** C1, as the code has it: a tar ball that passes the sanity check and
    whose [es_index] reports no failures is entered in the [indexed]
    ledger and its link is moved to [linkdest]: [INDEXED] when only
    tool data is indexed, [TO-INDEX-TOOL] otherwise (also when
    re-indexing). *)
Theorem success_moves_to_linkdest (o : Options) (env : Env) (res : Z)
  (end_ts : option Z) (size : Z) (controller tb : string) (r : es_result) :
  basename (dirname tb) = linksrc o ->
  try_block env (index_tool_data o) tb
    (join (INCOMING_rp env) [controller]) = Returns r ->
  failures r = 0 ->
  let dest :=
    join (dirname (dirname tb))
      [if index_tool_data o then "INDEXED" else "TO-INDEX-TOOL"] in
  let tr := fst (process_item o env res end_ts (size, controller, tb)) in
  tr = EvPbenchTarBall tb
         :: (ie_report env (Some (end_ r)) tb
               ++ [EvLedger Indexed tb; EvRename tb dest])%list
  /\ ledger_entries tb tr = [Indexed]
  /\ moves tb tr = [dest].
Proof.
  intros Hsane Htry Hfail dest tr.
  assert (Htr : tr = EvPbenchTarBall tb
                       :: (ie_report env (Some (end_ r)) tb
                             ++ [EvLedger Indexed tb; EvRename tb dest])%list).
  { subst tr.
    rewrite (process_item_classified o env res end_ts size controller tb 0
               Hsane).
    - rewrite Htry. cbn [update_end].
      unfold dispatch, select_branch. cbn [Z.eqb].
      unfold record_and_move, linkdest. subst dest.
      destruct (index_tool_data o); reflexivity.
    - rewrite Htry. cbn [classify]. rewrite Hfail. reflexivity. }
  split; [exact Htr|].
  rewrite Htr.
  apply item_trace_entries, ie_report_no_item_event.
Qed.

Lemma success_moves_to_linkdest_witness :
  let tr :=
    fst (process_item opts_tool_data env_clean 0 None
           (100, "host", tb_tool)) in
  tr = [EvPbenchTarBall tb_tool; EvLedger Indexed tb_tool;
        EvRename tb_tool "/A/host/INDEXED"]
  /\ ledger_entries tb_tool tr = [Indexed]
  /\ moves tb_tool tr = ["/A/host/INDEXED"].
Proof.
  exact (success_moves_to_linkdest opts_tool_data env_clean 0 None 100
           "host" tb_tool es_clean eq_refl eq_refl eq_refl).
Defined.

(** C1 as stated fails in the default mode: the tar ball [tb_a] is
    indexed without failures and its link is moved to [TO-INDEX-TOOL];
    no move to [INDEXED] is made in the run. *)
Lemma success_default_mode_not_INDEXED :
  index_tool_data opts_default = false
  /\ try_block env_clean false tb_a (join (INCOMING_rp env_clean) ["host"])
     = Returns es_clean
  /\ failures es_clean = 0
  /\ main opts_default env_clean
     = (Return 0,
        [EvUpdateTemplates; EvPostStatus "start" true;
         EvPbenchTarBall tb_a; EvLedger Indexed tb_a;
         EvRename tb_a "/A/host/TO-INDEX-TOOL";
         EvPostStatus "status" true])
  /\ ~ In (EvRename tb_a "/A/host/INDEXED")
          (snd (main opts_default env_clean)).
Proof.
  repeat split.
  intros H. vm_compute in H.
  repeat (destruct H as [H | H]; [discriminate H|]).
  exact H.
Qed.

(** ** The move of a tar ball with indexing failures *)

(** C2: a tar ball that passes the sanity check and for which
    [es_index] reports [failures > 0] is entered in the [erred] ledger
    and in no other, and the one move of its link is to [WONT-INDEX.1];
    no move to [INDEXED] is among the events. *)
Theorem index_failures_move_to_WONT_INDEX_1 (o : Options) (env : Env)
  (res : Z) (end_ts : option Z) (size : Z) (controller tb : string)
  (r : es_result) :
  basename (dirname tb) = linksrc o ->
  try_block env (index_tool_data o) tb
    (join (INCOMING_rp env) [controller]) = Returns r ->
  failures r > 0 ->
  let cp := dirname (dirname tb) in
  let tr := fst (process_item o env res end_ts (size, controller, tb)) in
  tr = EvPbenchTarBall tb
         :: (ie_report env (Some (end_ r)) tb
               ++ [EvLedger Erred tb;
                   EvRename tb (join cp ["WONT-INDEX.1"])])%list
  /\ ledger_entries tb tr = [Erred]
  /\ moves tb tr = [join cp ["WONT-INDEX.1"]]
  /\ ~ In (EvRename tb (join cp ["INDEXED"])) tr.
Proof.
  intros Hsane Htry Hfail cp tr.
  assert (Htr : tr = EvPbenchTarBall tb
                       :: (ie_report env (Some (end_ r)) tb
                             ++ [EvLedger Erred tb;
                                 EvRename tb (join cp ["WONT-INDEX.1"])])%list).
  { subst tr.
    rewrite (process_item_classified o env res end_ts size controller tb 1
               Hsane).
    - rewrite Htry. reflexivity.
    - rewrite Htry. cbn [classify].
      apply Z.gtb_gt in Hfail. now rewrite Hfail. }
  split; [exact Htr|].
  destruct (item_trace_entries tb (join cp ["WONT-INDEX.1"]) Erred
              (ie_report env (Some (end_ r)) tb)
              (ie_report_no_item_event env _ tb)) as [Hl Hm].
  rewrite Htr. repeat split; [exact Hl | exact Hm |].
  intros [H | H]; [discriminate H|].
  apply in_app_or in H as [H | H].
  - pose proof (ie_report_no_item_event env (Some (end_ r)) tb) as Hie.
    rewrite Forall_forall in Hie. apply Hie in H. discriminate H.
  - destruct H as [H | [H | []]]; [discriminate H|].
    injection H as H.
    apply join_one_inj in H; [discriminate H | reflexivity | reflexivity].
Qed.

Lemma index_failures_move_to_WONT_INDEX_1_witness :
  let tr :=
    fst (process_item opts_default env_failing 0 None
           (100, "host", tb_a)) in
  tr = [EvPbenchTarBall tb_a; EvLedger Erred tb_a;
        EvRename tb_a "/A/host/WONT-INDEX.1"]
  /\ ledger_entries tb_a tr = [Erred]
  /\ moves tb_a tr = ["/A/host/WONT-INDEX.1"]
  /\ ~ In (EvRename tb_a "/A/host/INDEXED") tr.
Proof.
  exact (index_failures_move_to_WONT_INDEX_1 opts_default env_failing 0 None
           100 "host" tb_a es_failing eq_refl eq_refl eq_refl).
Defined.

(** ** Status codes and the branches of the loop body *)

Lemma classify_codes (out : try_outcome) (tb_res : Z) :
  classify out = Some tb_res ->
  In tb_res [0; 1; 4; 5; 6; 7; 10; 11; 12].
Proof.
  destruct out as [st e | r]; cbn [classify].
  - destruct e, st; intros H; inversion H; subst; simpl; tauto.
  - destruct (failures r >? 0); intros H; inversion H; subst; simpl; tauto.
Qed.

Lemma classify_raises_fatal (st : stage) (e : exn) (tb_res : Z) :
  classify (Raises st e) = Some tb_res -> 4 <= tb_res.
Proof.
  destruct e, st; cbn [classify]; intros H; inversion H; lia.
Qed.

Lemma select_branch_fatal (res tb_res : Z) :
  4 <= tb_res -> select_branch res tb_res = BrSkip.
Proof.
  intros H. unfold select_branch.
  destruct (tb_res =? 0) eqn:E0; [apply Z.eqb_eq in E0; lia|].
  destruct (tb_res =? 1) eqn:E1; [apply Z.eqb_eq in E1; lia|].
  destruct (tb_res =? 2) eqn:E2; [apply Z.eqb_eq in E2; lia|].
  destruct (tb_res =? 3) eqn:E3; [apply Z.eqb_eq in E3; lia|].
  cbn [orb].
  assert (Hge : (tb_res >=? 4) = true) by (apply Z.geb_le; lia).
  now rewrite Hge.
Qed.

(** The status codes of the loop body: whenever the [try] statement
    of the loop body assigns
    [tb_res], the value is one of 0, 1, 4, 5, 6, 7, 10, 11, 12; for it
    the chain on [tb_res] takes neither the branch of the assertion on
    2 and 3 nor the final [else] branch, whatever [res] is; and when
    the value comes from an exception (4 to 12, the generic 12
    included) the tar ball is entered in the [skipped] ledger and moved
    to [WONT-INDEX.<tb_res>]. *)
Theorem outcome_codes_closed (o : Options) (env : Env) (res : Z)
  (end_ts : option Z) (size : Z) (controller tb : string) (tb_res : Z) :
  basename (dirname tb) = linksrc o ->
  classify (try_block env (index_tool_data o) tb
              (join (INCOMING_rp env) [controller])) = Some tb_res ->
  In tb_res [0; 1; 4; 5; 6; 7; 10; 11; 12]
  /\ select_branch res tb_res <> BrLogicBomb
  /\ select_branch res tb_res <> BrError
  /\ (forall st e,
        try_block env (index_tool_data o) tb
          (join (INCOMING_rp env) [controller]) = Raises st e ->
        let dest :=
          join (dirname (dirname tb)) ["WONT-INDEX." ++ fmt_d tb_res] in
        let tr :=
          fst (process_item o env res end_ts (size, controller, tb)) in
        tr = EvPbenchTarBall tb
               :: (ie_report env end_ts tb
                     ++ [EvLedger Skipped tb; EvRename tb dest])%list
        /\ ledger_entries tb tr = [Skipped]
        /\ moves tb tr = [dest]).
Proof.
  intros Hsane Hcl.
  pose proof (classify_codes _ _ Hcl) as Hin.
  split; [exact Hin|].
  assert (Hbr : select_branch res tb_res = BrSuccess
                \/ select_branch res tb_res = BrIndexFailures
                \/ select_branch res tb_res = BrSkip).
  { simpl in Hin.
    destruct Hin as [H | [H | Hrest]]; [subst; auto | subst; auto |].
    right; right. apply select_branch_fatal.
    repeat (destruct Hrest as [H | Hrest]; [lia|]). destruct Hrest. }
  split; [destruct Hbr as [H | [H | H]]; rewrite H; discriminate|].
  split; [destruct Hbr as [H | [H | H]]; rewrite H; discriminate|].
  intros st e Htry dest tr.
  assert (Htr : tr = EvPbenchTarBall tb
                       :: (ie_report env end_ts tb
                             ++ [EvLedger Skipped tb; EvRename tb dest])%list).
  { subst tr.
    rewrite (process_item_classified o env res end_ts size controller tb
               tb_res Hsane Hcl).
    rewrite Htry in *. cbn [update_end].
    unfold dispatch.
    rewrite (select_branch_fatal res tb_res
               (classify_raises_fatal st e tb_res Hcl)).
    reflexivity. }
  split; [exact Htr|].
  rewrite Htr.
  apply item_trace_entries, ie_report_no_item_event.
Qed.

Lemma outcome_codes_closed_witness :
  In 11 [0; 1; 4; 5; 6; 7; 10; 11; 12]
  /\ select_branch 0 11 <> BrLogicBomb
  /\ select_branch 0 11 <> BrError
  /\ (forall st e,
        try_block env_corrupt_late false tb_a
          (join (INCOMING_rp env_corrupt_late) ["host"]) = Raises st e ->
        let dest := join (dirname (dirname tb_a)) ["WONT-INDEX." ++ fmt_d 11] in
        let tr :=
          fst (process_item opts_default env_corrupt_late 0 None
                 (100, "host", tb_a)) in
        tr = EvPbenchTarBall tb_a
               :: (ie_report env_corrupt_late None tb_a
                     ++ [EvLedger Skipped tb_a; EvRename tb_a dest])%list
        /\ ledger_entries tb_a tr = [Skipped]
        /\ moves tb_a tr = [dest]).
Proof.
  exact (outcome_codes_closed opts_default env_corrupt_late 0 None 100
           "host" tb_a 11 eq_refl eq_refl).
Defined.

(** ** A [TarError] of [PbenchTarBall(...)] *)

(** When the exception leaves the [try] statement of the loop body,
    the loop body makes no ledger entry and no move. *)
Lemma process_item_escape (o : Options) (env : Env) (res : Z)
  (end_ts : option Z) (size : Z) (controller tb : string) :
  basename (dirname tb) = linksrc o ->
  try_block env (index_tool_data o) tb
    (join (INCOMING_rp env) [controller]) = Raises PtbNone TarError ->
  process_item o env res end_ts (size, controller, tb)
  = ([EvPbenchTarBall tb], ItemAbort).
Proof.
  intros Hsane Htry. unfold process_item.
  rewrite Hsane, String.eqb_refl, Htry. reflexivity.
Qed.

(** C3, the run of [env_corrupt]: [tb_a] enters the loop,
    [PbenchTarBall(...)] raises [TarError] with [ptb] still [None], the
    handler fails on [ptb.extracted_root], and the loop ends: [tb_a] is
    in no ledger and is not moved, and [tb_b] is not looked at. *)
Theorem tar_error_in_constructor_no_ledger_no_move :
  snd (discover opts_default env_corrupt)
  = Some [(100, "host", tb_a); (200, "host-1", tb_b)]
  /\ process_item opts_default env_corrupt 0 None (100, "host", tb_a)
     = ([EvPbenchTarBall tb_a], ItemAbort)
  /\ ledger_entries tb_a (snd (main opts_default env_corrupt)) = []
  /\ moves tb_a (snd (main opts_default env_corrupt)) = []
  /\ ~ In (EvPbenchTarBall tb_b) (snd (main opts_default env_corrupt)).
Proof.
  repeat split.
  intros H. vm_compute in H.
  repeat (destruct H as [H | H]; [discriminate H|]).
  exact H.
Qed.

(** C10, the run of [env_corrupt]: [tb_a] is processed (its [try]
    block is entered) and ends with a fatal unpack error, but the
    [try] statement assigns no status to it, neither 11 nor any other
    of the codes: the run has no entry in the [skipped] ledger and
    asks for no move of [tb_a], so none to [WONT-INDEX.11]. *)
Theorem tar_error_in_constructor_no_outcome_code :
  opened (snd (main opts_default env_corrupt)) = [tb_a]
  /\ try_block env_corrupt (index_tool_data opts_default) tb_a
       (join (INCOMING_rp env_corrupt) ["host"])
     = Raises PtbNone TarError
  /\ classify (Raises PtbNone TarError) = None
  /\ ledger_lines Skipped (snd (main opts_default env_corrupt)) = []
  /\ ~ In (EvRename tb_a "/A/host/WONT-INDEX.11")
          (snd (main opts_default env_corrupt)).
Proof.
  repeat split.
  intros H. vm_compute in H.
  repeat (destruct H as [H | H]; [discriminate H|]).
  exact H.
Qed.

(** C6, the run of [env_corrupt]: the unpack error of [tb_a] ends the
    loop, and [main] returns 12; there is no entry in the [skipped]
    ledger and no move to a [WONT-INDEX] directory. *)
Theorem tar_error_in_constructor_returns_12 :
  main opts_default env_corrupt
  = (Return 12,
     [EvUpdateTemplates; EvPostStatus "start" true;
      EvPbenchTarBall tb_a; EvPostStatus "status" true]).
Proof. reflexivity. Qed.

(** The same run with the [TarError] raised after [ptb] is bound:
    [tb_a] goes to the [skipped] ledger and to [WONT-INDEX.11], the
    loop goes on and [main] returns 0. *)
Example tar_error_late_returns_0 :
  main opts_default env_corrupt_late
  = (Return 0,
     [EvUpdateTemplates; EvPostStatus "start" true;
      EvPbenchTarBall tb_a; EvLedger Skipped tb_a;
      EvRename tb_a "/A/host/WONT-INDEX.11";
      EvPbenchTarBall tb_b; EvLedger Indexed tb_b;
      EvRename tb_b "/A/host-1/TO-INDEX-TOOL";
      EvPostStatus "status" true]).
Proof. reflexivity. Qed.

(** ** The order of processing *)

Section Order.

Lemma str_ltb_lt (a b : string) :
  String.ltb a b = true <-> String.compare a b = Lt.
Proof.
  unfold String.ltb. destruct (String.compare a b); split; congruence.
Qed.

Lemma str_compare_refl (a : string) : String.compare a a = Eq.
Proof. now apply String_as_OT.cmp_eq. Qed.

Lemma str_leb_cases (a b : string) :
  String.leb a b = true <-> String.compare a b = Lt \/ a = b.
Proof.
  unfold String.leb.
  destruct (String.compare a b) eqn:E; split; intros H; auto.
  - right. now apply String.compare_eq_iff.
  - discriminate.
  - destruct H as [H | H]; [discriminate|].
    subst b. rewrite str_compare_refl in E. discriminate.
Qed.

Lemma str_lt_trans (a b c : string) :
  String.compare a b = Lt -> String.compare b c = Lt ->
  String.compare a c = Lt.
Proof.
  intros H1 H2.
  apply String_as_OT.cmp_lt in H1, H2. apply String_as_OT.cmp_lt.
  eapply String_as_OT.lt_trans; eassumption.
Qed.

Lemma str_leb_trans (a b c : string) :
  String.leb a b = true -> String.leb b c = true ->
  String.leb a c = true.
Proof.
  rewrite !str_leb_cases.
  intros [H1 | H1] [H2 | H2]; subst; auto.
  left. eapply str_lt_trans; eassumption.
Qed.

Lemma tarball_le_spelled (a b : tarball) :
  tarball_le a b <-> size_controller_path_le a b.
Proof.
  destruct a as [[s1 c1] p1], b as [[s2 c2] p2].
  unfold tarball_le, tarball_leb, tarball_compare, size_controller_path_le,
    tb_size, tb_controller, tb_path. cbn [fst snd].
  rewrite str_ltb_lt. unfold String.leb.
  destruct (Z.compare_spec s1 s2) as [Hs | Hs | Hs].
  - subst s2.
    destruct (String.compare c1 c2) eqn:Ec.
    + apply String.compare_eq_iff in Ec. subst c2.
      destruct (String.compare p1 p2); split; intros H; auto;
        try discriminate;
        destruct H as [H | [_ [H | [_ H]]]];
        try lia; try discriminate; auto.
    + split; auto.
    + split; [discriminate|].
      intros [H | [_ [H | [H _]]]]; [lia | discriminate |].
      subst c2. rewrite str_compare_refl in Ec. discriminate.
  - split; auto.
  - split; [discriminate|]. intros [H | [H _]]; lia.
Qed.

Lemma tarball_le_total (a b : tarball) :
  tarball_le a b \/ tarball_le b a.
Proof.
  destruct a as [[s1 c1] p1], b as [[s2 c2] p2].
  unfold tarball_le, tarball_leb, tarball_compare.
  rewrite (Z.compare_antisym s1 s2).
  rewrite (String.compare_antisym c2 c1), (String.compare_antisym p2 p1).
  destruct (s1 ?= s2); cbn [CompOpp]; auto.
  destruct (String.compare c1 c2); cbn [CompOpp]; auto.
  destruct (String.compare p1 p2); cbn [CompOpp]; auto.
Qed.

Lemma tarball_le_trans (a b c : tarball) :
  tarball_le a b -> tarball_le b c -> tarball_le a c.
Proof.
  rewrite !tarball_le_spelled.
  unfold size_controller_path_le.
  rewrite !str_ltb_lt.
  intros [H1 | [H1 [C1 | [C1 P1]]]] [H2 | [H2 [C2 | [C2 P2]]]];
    try (left; lia); right; (split; [lia|]).
  - left. eapply str_lt_trans; eassumption.
  - left. now rewrite <- C2.
  - left. now rewrite C1.
  - right. split; [congruence|]. eapply str_leb_trans; eassumption.
Qed.

Lemma tarball_le_antisym (a b : tarball) :
  tarball_le a b -> tarball_le b a -> a = b.
Proof.
  destruct a as [[s1 c1] p1], b as [[s2 c2] p2].
  unfold tarball_le, tarball_leb, tarball_compare.
  rewrite (Z.compare_antisym s1 s2).
  rewrite (String.compare_antisym c2 c1), (String.compare_antisym p2 p1).
  destruct (s1 ?= s2) eqn:Es; cbn [CompOpp]; try discriminate.
  apply Z.compare_eq in Es.
  destruct (String.compare c1 c2) eqn:Ec; cbn [CompOpp]; try discriminate.
  apply String.compare_eq_iff in Ec.
  destruct (String.compare p1 p2) eqn:Ep; cbn [CompOpp]; try discriminate.
  apply String.compare_eq_iff in Ep.
  intros _ _. congruence.
Qed.

Lemma insert_perm (x : tarball) (l : list tarball) :
  Permutation (x :: l) (insert x l).
Proof.
  induction l as [| y l IH]; simpl.
  - apply Permutation_refl.
  - destruct (tarball_leb x y).
    + apply Permutation_refl.
    + eapply perm_trans; [apply perm_swap|].
      now apply perm_skip.
Qed.

Lemma sorted_perm (l : list tarball) : Permutation l (sorted l).
Proof.
  induction l as [| x l IH]; simpl.
  - apply perm_nil.
  - eapply perm_trans; [apply perm_skip, IH | apply insert_perm].
Qed.

Lemma insert_sorted (x : tarball) (l : list tarball) :
  Sorted tarball_le l -> Sorted tarball_le (insert x l).
Proof.
  induction 1 as [| y l Hs IH Hhd]; simpl.
  - repeat constructor.
  - destruct (tarball_leb x y) eqn:E.
    + constructor; [now constructor | now constructor].
    + assert (Hyx : tarball_le y x).
      { destruct (tarball_le_total x y) as [H | H]; [|exact H].
        unfold tarball_le in H. congruence. }
      constructor; [exact IH|].
      destruct l as [| z l]; simpl.
      * now constructor.
      * destruct (tarball_leb x z); constructor; [exact Hyx|].
        now inversion Hhd.
Qed.

Lemma sorted_Sorted (l : list tarball) : Sorted tarball_le (sorted l).
Proof.
  induction l as [| x l IH]; simpl.
  - constructor.
  - now apply insert_sorted.
Qed.

Lemma sorted_StronglySorted (l : list tarball) :
  StronglySorted tarball_le (sorted l).
Proof.
  apply Sorted_StronglySorted; [| apply sorted_Sorted].
  intros a b c. apply tarball_le_trans.
Qed.

(** A list has one sorted arrangement. *)
Lemma StronglySorted_perm_eq (l1 l2 : list tarball) :
  StronglySorted tarball_le l1 -> StronglySorted tarball_le l2 ->
  Permutation l1 l2 -> l1 = l2.
Proof.
  intros H1. revert l2.
  induction H1 as [| a l1 Hs1 IH Ha]; intros l2 H2 Hp.
  - apply Permutation_nil in Hp. now subst.
  - destruct H2 as [| b l2 Hs2 Hb].
    + apply Permutation_sym, Permutation_nil in Hp. discriminate.
    + assert (Hab : a = b).
      { rewrite Forall_forall in Ha, Hb.
        assert (Hin_a : In a (b :: l2))
          by (eapply Permutation_in; [exact Hp | now left]).
        assert (Hin_b : In b (a :: l1))
          by (eapply Permutation_in;
              [apply Permutation_sym; exact Hp | now left]).
        destruct Hin_a as [E | Hin_a]; [now subst|].
        destruct Hin_b as [E | Hin_b]; [now subst|].
        apply tarball_le_antisym; auto. }
      subst b. f_equal.
      apply IH; [exact Hs2|].
      eapply Permutation_cons_inv; exact Hp.
Qed.

Lemma StronglySorted_weaken (R R' : tarball -> tarball -> Prop)
  (l : list tarball) :
  (forall a b, R a b -> R' a b) ->
  StronglySorted R l -> StronglySorted R' l.
Proof.
  intros HR. induction 1 as [| a l Hs IH Ha]; constructor; auto.
  eapply Forall_impl; [|exact Ha]. auto.
Qed.

End Order.

(** C5, as the code has it: the list the loop goes through holds the
    discovered tar balls, each as often as it was discovered, over all
    controllers; it is non-decreasing in size; tar balls of equal size
    are ordered by controller name and, under one controller name, by
    path; and it is the same list for every order in which the glob
    yields the links. *)
Theorem processing_order (l : list tarball) :
  Permutation l (sorted l)
  /\ StronglySorted (fun a b => tb_size a <= tb_size b) (sorted l)
  /\ StronglySorted size_controller_path_le (sorted l)
  /\ (forall l', Permutation l l' -> sorted l' = sorted l).
Proof.
  split; [apply sorted_perm|].
  split.
  { eapply StronglySorted_weaken; [| apply sorted_StronglySorted].
    intros a b H. apply tarball_le_spelled in H.
    destruct H as [H | [H _]]; lia. }
  split.
  { eapply StronglySorted_weaken; [| apply sorted_StronglySorted].
    intros a b. apply tarball_le_spelled. }
  intros l' Hp.
  apply StronglySorted_perm_eq; try apply sorted_StronglySorted.
  eapply perm_trans; [apply Permutation_sym, sorted_perm|].
  eapply perm_trans; [apply Permutation_sym, Hp|].
  apply sorted_perm.
Qed.

(** C5 as stated fails: [tb_a] under [host] and [tb_b] under [host-1]
    have the same size; [host] is before [host-1], so [tb_a] is
    processed first, and the path of [tb_b] is before the path of
    [tb_a]. *)
Lemma tie_not_broken_by_path :
  prepare opts_default env_tie
  = (inr [(100, "host", tb_a); (100, "host-1", tb_b)], [EvUpdateTemplates])
  /\ String.ltb tb_b tb_a = true
  /\ ~ Sorted size_path_le [(100, "host", tb_a); (100, "host-1", tb_b)].
Proof.
  split; [reflexivity|]. split; [reflexivity|].
  intros H. inversion H as [| a l Hs Hhd]; subst.
  inversion Hhd as [| b l' Hab]; subst.
  destruct Hab as [Hlt | [_ Hle]].
  - cbv in Hlt. discriminate.
  - vm_compute in Hle. discriminate.
Qed.

(** ** Discovery and the quarantine *)

Section Discovery.

Variable env : Env.

Lemma gate_check_fails_quarantined (tb : string) :
  gate_check_fails env tb = true -> gate env tb = Quarantined.
Proof.
  unfold gate_check_fails, gate.
  destruct (realpath env tb) as [rp | |]; try discriminate; auto.
  destruct (negb (dirname (dirname rp) =? ARCHIVE_rp env)%string);
    [reflexivity|].
  destruct (negb (isfile env (rp ++ ".md5"))); [reflexivity|].
  cbn [orb].
  destruct (getsize env rp); try discriminate; auto.
Qed.

Lemma gate_accepted_path (tb : string) (t : tarball) :
  gate env tb = Accepted t -> tb_path t = tb.
Proof.
  unfold gate.
  destruct (realpath env tb) as [rp | |]; try discriminate.
  destruct (negb _); try discriminate.
  destruct (negb _); try discriminate.
  destruct (getsize env rp); try discriminate.
  intros H. injection H as H. now subst t.
Qed.

(** The discovery loop only calls [quarantine]. *)
Lemma scan_trace (tbs : list string) :
  Forall (fun e => exists tb, e = EvQuarantine tb) (fst (scan env tbs)).
Proof.
  induction tbs as [| tb rest IH]; simpl.
  - constructor.
  - destruct (gate env tb); simpl.
    + destruct (scan env rest); exact IH.
    + destruct (scan env rest); simpl in *.
      constructor; [now exists tb | exact IH].
    + constructor.
Qed.

(** Every entry of [tarballs] passed the checks. *)
Lemma scan_accepted (tbs : list string) (l : list tarball) :
  snd (scan env tbs) = Some l ->
  Forall (fun t => gate env (tb_path t) = Accepted t) l.
Proof.
  revert l.
  induction tbs as [| tb rest IH]; simpl; intros l H.
  - injection H as H. subst l. constructor.
  - destruct (gate env tb) as [t | |] eqn:G.
    + destruct (scan env rest) as [tr [l' |]]; simpl in *;
        [| discriminate].
      injection H as H. subst l.
      constructor.
      * now rewrite (gate_accepted_path tb t G).
      * now apply IH.
    + destruct (scan env rest) as [tr r]; simpl in *. now apply IH.
    + discriminate.
Qed.

End Discovery.

(** ** The events of a run *)

Section RunEvents.

Variables (o : Options) (env : Env).

Lemma dispatch_events (res tb_res : Z) (tb cp : string)
  (end_ts : option Z) (e : event) :
  In e (fst (dispatch o env res tb_res tb cp end_ts)) ->
  (exists l, e = EvLedger l tb) \/ (exists dest, e = EvRename tb dest).
Proof.
  unfold dispatch, record_and_move.
  destruct (select_branch res tb_res); simpl; intros H;
    repeat (destruct H as [H | H]; [subst e; eauto|]);
    destruct H.
Qed.

(** The tar ball objects the loop body makes are for its own tar
    ball. *)
Lemma process_item_opens (res : Z) (end_ts : option Z) (t : tarball)
  (tb : string) :
  In (EvPbenchTarBall tb) (fst (process_item o env res end_ts t)) ->
  tb = tb_path t.
Proof.
  destruct t as [[size controller] tb'].
  unfold process_item, tb_path. cbn [snd].
  destruct (negb _); [intros []|].
  destruct (classify _) as [tb_res|].
  - destruct (dispatch o env res tb_res tb' _ _) as [tr r] eqn:D.
    cbn [fst]. intros [H | H]; [congruence|].
    apply in_app_or in H as [H | H].
    + pose proof (ie_report_no_item_event env
                    (update_end end_ts
                       (try_block env (index_tool_data o) tb'
                          (join (INCOMING_rp env) [controller]))) tb') as F.
      rewrite Forall_forall in F. apply F in H. discriminate.
    + assert (H' : In (EvPbenchTarBall tb)
                     (fst (dispatch o env res tb_res tb'
                             (dirname (dirname tb'))
                             (update_end end_ts
                                (try_block env (index_tool_data o) tb'
                                   (join (INCOMING_rp env) [controller]))))))
        by (rewrite D; exact H).
      apply dispatch_events in H' as [[l E] | [d E]]; discriminate.
  - cbn [fst]. intros [H | []]. congruence.
Qed.

Lemma process_items_opens (res : Z) (end_ts : option Z)
  (ts : list tarball) (tb : string) :
  In (EvPbenchTarBall tb) (fst (process_items o env res end_ts ts)) ->
  In tb (map tb_path ts).
Proof.
  revert end_ts.
  induction ts as [| t rest IH]; simpl; intros end_ts H.
  - destruct H.
  - destruct (process_item o env res end_ts t) as [tr [e' |]] eqn:P.
    + destruct (process_items o env res e' rest) as [tr' ok] eqn:Q.
      cbn [fst] in H. apply in_app_or in H as [H | H].
      * left. symmetry. apply (process_item_opens res end_ts t).
        now rewrite P.
      * right. apply (IH e'). now rewrite Q.
    + cbn [fst] in H. left. symmetry.
      apply (process_item_opens res end_ts t). now rewrite P.
Qed.

Lemma discover_trace :
  Forall (fun e => exists tb, e = EvQuarantine tb) (fst (discover o env)).
Proof. apply scan_trace. Qed.

Lemma quarantine_no_item_event (tr : list event) :
  Forall (fun e => exists tb, e = EvQuarantine tb) tr ->
  Forall (fun e => is_item_event e = false) tr.
Proof.
  apply Forall_impl. intros e [tb ->]. reflexivity.
Qed.

(** Before the [Report] is made nothing is done to a tar ball that
    passed the checks. *)
Lemma prepare_no_item_event :
  Forall (fun e => is_item_event e = false) (snd (prepare o env)).
Proof.
  unfold prepare.
  destruct (cfg_name_missing o); [constructor|].
  destruct (idxctx_init env); try constructor.
  destruct (dump_index_patterns o); [repeat constructor|].
  destruct (dump_templates o); [repeat constructor|].
  cbv zeta.
  destruct (negb (validate_environment env =? 0)); [constructor|].
  pose proof (quarantine_no_item_event _ discover_trace) as F.
  destruct (discover o env) as [tr_q [[| t l] |]]; cbn [fst snd] in *;
    try exact F.
  destruct (negb (ensure_templates env =? 0)); cbn [snd];
    apply Forall_app; split; try exact F; repeat constructor.
Qed.

(** The list the loop goes through is the sorted list of the
    discovered tar balls. *)
Lemma prepare_tarballs (ts : list tarball) (tr : list event) :
  prepare o env = (inr ts, tr) ->
  exists l, snd (discover o env) = Some l /\ ts = sorted l.
Proof.
  unfold prepare.
  destruct (cfg_name_missing o); [discriminate|].
  destruct (idxctx_init env); try discriminate.
  destruct (dump_index_patterns o); [discriminate|].
  destruct (dump_templates o); [discriminate|].
  cbv zeta.
  destruct (negb (validate_environment env =? 0)); [discriminate|].
  destruct (discover o env) as [tr_q [[| t l] |]]; try discriminate.
  destruct (negb (ensure_templates env =? 0)); [discriminate|].
  intros H. injection H as H _. exists (t :: l). cbn [snd]. auto.
Qed.

Lemma main_opens_discovered (tb : string) :
  In (EvPbenchTarBall tb) (snd (main o env)) ->
  exists l, snd (discover o env) = Some l /\ In tb (map tb_path l).
Proof.
  unfold main.
  pose proof prepare_no_item_event as F.
  destruct (prepare o env) as [[r | ts] tr] eqn:P; cbn [snd] in *.
  - intros H. rewrite Forall_forall in F. apply F in H. discriminate.
  - destruct (prepare_tarballs ts tr P) as [l [Hd Hts]].
    unfold index_tarballs.
    assert (Hshort : forall b,
               ~ In (EvPbenchTarBall tb)
                   (tr ++ [EvPostStatus "start" b])%list).
    { intros b H. apply in_app_or in H as [H | H].
      - rewrite Forall_forall in F. apply F in H. discriminate.
      - destruct H as [H | []]. discriminate. }
    destruct (post_start env).
    + destruct (tmpdir_raises env);
        [cbn [snd]; intros H; destruct (Hshort _ H)|].
      destruct (list_file_raises env);
        [cbn [snd]; intros H; destruct (Hshort _ H)|].
      destruct (process_items o env 0 None ts) as [tr_i ok] eqn:Q.
      cbn [snd]. intros H.
      apply in_app_or in H as [H | H].
      { rewrite Forall_forall in F. apply F in H. discriminate. }
      destruct H as [H | H]; [discriminate|].
      apply in_app_or in H as [H | H].
      * exists l. split; [exact Hd|].
        assert (Hin : In tb (map tb_path ts)).
        { apply (process_items_opens 0 None). now rewrite Q. }
        subst ts.
        apply in_map_iff in Hin as [t [Ht Hin]].
        apply in_map_iff. exists t. split; [exact Ht|].
        eapply Permutation_in; [apply Permutation_sym, sorted_perm|].
        exact Hin.
      * destruct H as [H | []]. discriminate.
    + cbn [snd]. intros H.
      apply in_app_or in H as [H | H].
      { rewrite Forall_forall in F. apply F in H. discriminate. }
      destruct H as [H | []]. discriminate.
Qed.

End RunEvents.

(** C4: a link that fails one of the four checks is handed to
    [quarantine] and the loop goes on with the links after it as it
    would without this link; the link is in no list [tarballs] the
    discovery makes, and no run makes a [PbenchTarBall] for it. *)
Theorem quarantine_gate (env : Env) (tb : string) :
  gate_check_fails env tb = true ->
  (forall rest,
      scan env (tb :: rest)
      = (EvQuarantine tb :: fst (scan env rest), snd (scan env rest)))
  /\ (forall tbs l,
         snd (scan env tbs) = Some l -> ~ In tb (map tb_path l))
  /\ (forall o, ~ In (EvPbenchTarBall tb) (snd (main o env))).
Proof.
  intros Hfail.
  pose proof (gate_check_fails_quarantined env tb Hfail) as Hq.
  assert (Hnot : forall tbs l,
             snd (scan env tbs) = Some l -> ~ In tb (map tb_path l)).
  { intros tbs l Hs Hin.
    apply in_map_iff in Hin as [t [Ht Hin]].
    pose proof (scan_accepted env tbs l Hs) as F.
    rewrite Forall_forall in F. apply F in Hin.
    rewrite Ht, Hq in Hin. discriminate. }
  split; [| split; [exact Hnot|]].
  - intros rest. simpl. rewrite Hq.
    now destruct (scan env rest).
  - intros o Hin.
    apply main_opens_discovered in Hin as [l [Hd Hin]].
    exact (Hnot _ _ Hd Hin).
Qed.

Lemma quarantine_gate_witness :
  (forall rest,
      scan env_no_md5 (tb_a :: rest)
      = (EvQuarantine tb_a :: fst (scan env_no_md5 rest),
         snd (scan env_no_md5 rest)))
  /\ (forall tbs l,
         snd (scan env_no_md5 tbs) = Some l -> ~ In tb_a (map tb_path l))
  /\ (forall o, ~ In (EvPbenchTarBall tb_a) (snd (main o env_no_md5))).
Proof.
  exact (quarantine_gate env_no_md5 tb_a eq_refl).
Defined.

(** The run of [env_no_md5]: [tb_a] goes to the quarantine, [tb_b] is
    indexed. *)
Example quarantine_run :
  main opts_default env_no_md5
  = (Return 0,
     [EvQuarantine tb_a; EvUpdateTemplates; EvPostStatus "start" true;
      EvPbenchTarBall tb_b; EvLedger Indexed tb_b;
      EvRename tb_b "/A/host-1/TO-INDEX-TOOL";
      EvPostStatus "status" true]).
Proof. reflexivity. Qed.

(** ** The result of a run *)

(** C9: when the run gets to the discovery and no link passes the
    checks, [main] returns 0; the only calls it has made are the calls
    to [quarantine]: no status is posted, no tar ball is opened, no
    ledger is written and no link is moved by [rename_tb_link]. *)
Theorem nothing_to_do (o : Options) (env : Env) :
  cfg_name_missing o = false ->
  idxctx_init env = InitOk ->
  dump_index_patterns o = false ->
  dump_templates o = false ->
  validate_environment env = 0 ->
  snd (discover o env) = Some [] ->
  main o env = (Return 0, fst (discover o env))
  /\ Forall (fun e => exists tb, e = EvQuarantine tb) (snd (main o env)).
Proof.
  intros Hcfg Hinit Hdi Hdt Hval Hdisc.
  assert (Hmain : main o env = (Return 0, fst (discover o env))).
  { unfold main, prepare.
    rewrite Hcfg, Hinit, Hdi, Hdt. cbv zeta. rewrite Hval. cbn [Z.eqb negb].
    destruct (discover o env) as [tr_q r]. cbn [snd] in Hdisc. subst r.
    reflexivity. }
  split; [exact Hmain|].
  rewrite Hmain. apply discover_trace.
Qed.

Lemma nothing_to_do_witness :
  main opts_default env_only_bad
  = (Return 0, fst (discover opts_default env_only_bad))
  /\ Forall (fun e => exists tb, e = EvQuarantine tb)
       (snd (main opts_default env_only_bad)).
Proof.
  exact (nothing_to_do opts_default env_only_bad eq_refl eq_refl eq_refl
           eq_refl eq_refl eq_refl).
Defined.

(** C7: when the run gets to the [Report] and the posting of the
    [start] status raises, [main] returns 12 right after it: the trace
    ends with the failed posting and holds no event of the loop over
    the tar balls (no tar ball opened, no ledger entry, no move). *)
Theorem start_post_failure_aborts (o : Options) (env : Env)
  (ts : list tarball) (tr : list event) :
  prepare o env = (inr ts, tr) ->
  post_start env = None ->
  main o env = (Return 12, (tr ++ [EvPostStatus "start" false])%list)
  /\ fst (main o env) <> Return 0
  /\ Forall (fun e => is_item_event e = false) (snd (main o env)).
Proof.
  intros Hprep Hpost.
  assert (Hmain : main o env
                  = (Return 12, (tr ++ [EvPostStatus "start" false])%list)).
  { unfold main, index_tarballs. now rewrite Hprep, Hpost. }
  split; [exact Hmain|].
  rewrite Hmain. cbn [fst snd].
  split; [discriminate|].
  apply Forall_app. split.
  - pose proof (prepare_no_item_event o env) as F.
    now rewrite Hprep in F.
  - repeat constructor.
Qed.

Lemma start_post_failure_aborts_witness :
  main opts_default env_no_start
  = (Return 12, [EvUpdateTemplates; EvPostStatus "start" false])
  /\ fst (main opts_default env_no_start) <> Return 0
  /\ Forall (fun e => is_item_event e = false)
       (snd (main opts_default env_no_start)).
Proof.
  exact (start_post_failure_aborts opts_default env_no_start
           [(100, "host", tb_a); (200, "host-1", tb_b)]
           [EvUpdateTemplates] eq_refl eq_refl).
Defined.

Section FinalPosting.

Variables (o : Options) (env : Env) (b : bool).

Lemma scan_with_post_final_raises (tbs : list string) :
  scan (with_post_final_raises b env) tbs = scan env tbs.
Proof.
  induction tbs as [| tb rest IH]; simpl; [reflexivity|].
  now rewrite IH.
Qed.

Lemma prepare_with_post_final_raises :
  prepare o (with_post_final_raises b env) = prepare o env.
Proof.
  unfold prepare, discover.
  now rewrite scan_with_post_final_raises.
Qed.

Lemma process_items_with_post_final_raises (res : Z)
  (end_ts : option Z) (ts : list tarball) :
  process_items o (with_post_final_raises b env) res end_ts ts
  = process_items o env res end_ts ts.
Proof.
  revert end_ts.
  induction ts as [| t rest IH]; intros end_ts; simpl; [reflexivity|].
  change (process_item o (with_post_final_raises b env) res end_ts t)
    with (process_item o env res end_ts t).
  destruct (process_item o env res end_ts t) as [tr [e' |]];
    [now rewrite IH | reflexivity].
Qed.

End FinalPosting.

(** C8: the value [main] returns does not depend on whether the
    posting of the final [status] record raises; the events of the
    loop over the tar balls do not depend on it either. *)
Theorem final_post_failure_swallowed (o : Options) (env : Env) (b : bool) :
  fst (main o (with_post_final_raises b env)) = fst (main o env)
  /\ filter is_item_event (snd (main o (with_post_final_raises b env)))
     = filter is_item_event (snd (main o env)).
Proof.
  unfold main.
  rewrite prepare_with_post_final_raises.
  destruct (prepare o env) as [[r | ts] tr]; [split; reflexivity|].
  unfold index_tarballs.
  change (post_start (with_post_final_raises b env)) with (post_start env).
  destruct (post_start env); [| split; reflexivity].
  change (tmpdir_raises (with_post_final_raises b env))
    with (tmpdir_raises env).
  change (list_file_raises (with_post_final_raises b env))
    with (list_file_raises env).
  destruct (tmpdir_raises env); [split; reflexivity|].
  destruct (list_file_raises env); [split; reflexivity|].
  rewrite process_items_with_post_final_raises.
  destruct (process_items o env 0 None ts) as [tr_i ok].
  cbn [fst snd]. split; [reflexivity|].
  rewrite !filter_app. cbn [filter is_item_event finalize].
  rewrite !filter_app. reflexivity.
Qed.

(** A run in which the final posting raises. *)
Example final_post_raises_run :
  main opts_default (with_post_final_raises true env_failing)
  = (Return 0,
     [EvUpdateTemplates; EvPostStatus "start" true;
      EvPbenchTarBall tb_a; EvLedger Erred tb_a;
      EvRename tb_a "/A/host/WONT-INDEX.1";
      EvPostStatus "status" false]).
Proof. reflexivity. Qed.

(** ** The loop and the status of the run *)

Section Loop.

Variables (o : Options) (env : Env).

(** The loop body ends without an exception for a tar ball that
    passes the sanity check, gets a status, and whose link
    [rename_tb_link] moves. *)
Lemma process_item_done (res : Z) (end_ts : option Z) (t : tarball) :
  basename (dirname (tb_path t)) = linksrc o ->
  classify (try_block env (index_tool_data o) (tb_path t)
              (join (INCOMING_rp env) [tb_controller t])) <> None ->
  (forall dest, rename_raises env (tb_path t) dest = false) ->
  exists e', snd (process_item o env res end_ts t) = ItemDone e'.
Proof.
  destruct t as [[size controller] tb].
  unfold tb_path, tb_controller. cbn [fst snd].
  intros Hsane Hcl Hmv.
  destruct (classify _) as [tb_res|] eqn:C; [clear Hcl | congruence].
  pose proof (outcome_codes_shape := classify_codes _ _ C).
  rewrite (process_item_classified o env res end_ts size controller tb
             tb_res Hsane C).
  cbv zeta. unfold dispatch.
  assert (Hbr : select_branch res tb_res = BrSuccess
                \/ select_branch res tb_res = BrIndexFailures
                \/ select_branch res tb_res = BrSkip).
  { simpl in outcome_codes_shape.
    destruct outcome_codes_shape as [H | [H | Hrest]];
      [subst; auto | subst; auto |].
    right; right. apply select_branch_fatal.
    repeat (destruct Hrest as [H | Hrest]; [lia|]). destruct Hrest. }
  destruct Hbr as [H | [H | H]]; rewrite H; unfold record_and_move;
    rewrite Hmv; cbn [snd]; eauto.
Qed.

(** A tar ball that passes the sanity check and gets a status is
    entered in one ledger and moved once. *)
Lemma classified_item_one_ledger_one_move (res : Z) (end_ts : option Z)
  (size : Z) (controller tb : string) (tb_res : Z) :
  basename (dirname tb) = linksrc o ->
  classify (try_block env (index_tool_data o) tb
              (join (INCOMING_rp env) [controller])) = Some tb_res ->
  let tr := fst (process_item o env res end_ts (size, controller, tb)) in
  exists l dest, ledger_entries tb tr = [l] /\ moves tb tr = [dest].
Proof.
  intros Hsane C tr. subst tr.
  pose proof (Hin := classify_codes _ _ C).
  rewrite (process_item_classified o env res end_ts size controller tb
             tb_res Hsane C).
  cbv zeta. unfold dispatch.
  assert (Hbr : select_branch res tb_res = BrSuccess
                \/ select_branch res tb_res = BrIndexFailures
                \/ select_branch res tb_res = BrSkip).
  { simpl in Hin.
    destruct Hin as [H | [H | Hrest]]; [subst; auto | subst; auto |].
    right; right. apply select_branch_fatal.
    repeat (destruct Hrest as [H | Hrest]; [lia|]). destruct Hrest. }
  destruct Hbr as [H | [H | H]]; rewrite H; unfold record_and_move;
    cbn [fst]; do 2 eexists;
    apply item_trace_entries, ie_report_no_item_event.
Qed.

Lemma process_items_complete (res : Z) (end_ts : option Z)
  (ts : list tarball) :
  Forall (fun t => basename (dirname (tb_path t)) = linksrc o) ts ->
  Forall (fun t =>
            classify (try_block env (index_tool_data o) (tb_path t)
                        (join (INCOMING_rp env) [tb_controller t]))
            <> None) ts ->
  (forall tb dest, rename_raises env tb dest = false) ->
  snd (process_items o env res end_ts ts) = true.
Proof.
  intros Hsane Hcl Hmv. revert end_ts.
  induction ts as [| t rest IH]; intros end_ts; simpl; [reflexivity|].
  inversion Hsane as [| ? ? Hs Hsane']; subst.
  inversion Hcl as [| ? ? Hc Hcl']; subst.
  destruct (process_item_done res end_ts t Hs Hc (Hmv (tb_path t)))
    as [e' He'].
  destruct (process_item o env res end_ts t) as [tr r].
  cbn [snd] in He'. subst r.
  specialize (IH Hsane' Hcl' e').
  destruct (process_items o env res e' rest) as [tr' ok].
  exact IH.
Qed.

(** The statuses of the tar balls do not change the status of the
    run: when the loop is reached and ends without an exception,
    [main] returns 0. *)
Lemma per_item_outcomes_keep_status_0 (ts : list tarball)
  (tr : list event) (tracking_id : string) :
  prepare o env = (inr ts, tr) ->
  post_start env = Some tracking_id ->
  tmpdir_raises env = false ->
  list_file_raises env = false ->
  Forall (fun t => basename (dirname (tb_path t)) = linksrc o) ts ->
  Forall (fun t =>
            classify (try_block env (index_tool_data o) (tb_path t)
                        (join (INCOMING_rp env) [tb_controller t]))
            <> None) ts ->
  (forall tb dest, rename_raises env tb dest = false) ->
  fst (main o env) = Return 0.
Proof.
  intros Hprep Hpost Htmp Hlist Hsane Hcl Hmv.
  unfold main, index_tarballs. rewrite Hprep, Hpost, Htmp, Hlist.
  pose proof (process_items_complete 0 None ts Hsane Hcl Hmv) as Hok.
  destruct (process_items o env 0 None ts) as [tr_i ok].
  cbn [snd] in Hok. subst ok. reflexivity.
Qed.

End Loop.

(** ** The statuses [main] returns *)

Lemma validate_environment_codes (env : Env) :
  validate_environment env = 0 \/ validate_environment env = 3
  \/ validate_environment env = 12.
Proof.
  unfold validate_environment.
  destruct (setup_raises env), (ARCHIVE_isdir env), (INCOMING_isdir env),
    (qdir_isdir env); cbn; auto.
Qed.

Lemma ensure_templates_codes (env : Env) :
  ensure_templates env = 0 \/ ensure_templates env = 9
  \/ ensure_templates env = 12.
Proof.
  unfold ensure_templates. destruct (update_templates env); auto.
Qed.

(** What [prepare] leaves when it returns early: the status and, for
    the statuses of a configuration that cannot be used, no event. *)
Lemma prepare_early (o : Options) (env : Env) (c : Z) (tr : list event) :
  prepare o env = (inl (Return c), tr) ->
  In c [0; 2; 3; 8; 9; 12] /\ (In c [2; 3; 8] -> tr = []).
Proof.
  unfold prepare.
  destruct (cfg_name_missing o).
  { intros H. inversion H. subst. simpl. tauto. }
  destruct (idxctx_init env);
    try (intros H; inversion H; subst; simpl; tauto).
  destruct (dump_index_patterns o).
  { intros H; inversion H; subst. simpl. split; [tauto|].
    intros [E | [E | [E | []]]]; discriminate. }
  destruct (dump_templates o).
  { intros H; inversion H; subst. simpl. split; [tauto|].
    intros [E | [E | [E | []]]]; discriminate. }
  cbv zeta.
  destruct (negb (validate_environment env =? 0)) eqn:V.
  { intros H; inversion H; subst.
    destruct (validate_environment_codes env) as [E | [E | E]];
      rewrite E in *; simpl; tauto. }
  destruct (discover o env) as [tr_q [[| t l] |]].
  - intros H; inversion H; subst. simpl. split; [tauto|].
    intros [E | [E | [E | []]]]; discriminate.
  - destruct (negb (ensure_templates env =? 0)) eqn:T; [| discriminate].
    intros H; inversion H; subst.
    destruct (ensure_templates_codes env) as [E | [E | E]];
      rewrite E in *; cbn in T; try discriminate T;
      (split; [simpl; tauto|]);
      intros [E' | [E' | [E' | []]]]; discriminate.
  - intros H; inversion H; subst. simpl. split; [tauto|].
    intros [E | [E | [E | []]]]; discriminate.
Qed.

Lemma index_tarballs_codes (o : Options) (env : Env) (res : Z)
  (ts : list tarball) (c : Z) :
  fst (index_tarballs o env res ts) = Return c -> c = 0 \/ c = 12.
Proof.
  unfold index_tarballs.
  destruct (post_start env).
  - destruct (tmpdir_raises env); [discriminate|].
    destruct (list_file_raises env); [discriminate|].
    destruct (process_items o env res None ts) as [tr_i [|]];
      cbn [fst]; intros H; inversion H; auto.
  - cbn [fst]. intros H; inversion H; auto.
Qed.

(** X1: a status [main] returns is one of 0, 2, 3, 8, 9 and 12; it
    never returns 1. *)
Theorem main_status_codes (o : Options) (env : Env) (c : Z) :
  fst (main o env) = Return c ->
  In c [0; 2; 3; 8; 9; 12] /\ c <> 1.
Proof.
  intros H.
  assert (Hin : In c [0; 2; 3; 8; 9; 12]).
  { unfold main in H.
    destruct (prepare o env) as [[r | ts] tr] eqn:P.
    - cbn [fst] in H. subst r.
      exact (proj1 (prepare_early o env c tr P)).
    - pose proof (index_tarballs_codes o env 0 ts c) as Hc.
      destruct (index_tarballs o env 0 ts) as [r tr'].
      cbn [fst] in *. destruct (Hc H); subst; simpl; tauto. }
  split; [exact Hin|].
  simpl in Hin. intros ->.
  repeat (destruct Hin as [Hin | Hin]; [discriminate|]). exact Hin.
Qed.

Lemma main_status_codes_witness :
  In 12 [0; 2; 3; 8; 9; 12] /\ 12 <> 1.
Proof.
  exact (main_status_codes opts_default env_corrupt 12 eq_refl).
Defined.

(** X2: when [main] returns 2, 3 or 8 (no configuration file, a
    configuration that cannot be used, a directory of the
    configuration that is no directory, mapping files that cannot be
    read) it has made no call at all: nothing was globbed into the
    quarantine, no template updated, no status posted, no tar ball
    touched. *)
Theorem configuration_errors_touch_nothing (o : Options) (env : Env)
  (c : Z) :
  fst (main o env) = Return c ->
  In c [2; 3; 8] ->
  snd (main o env) = [].
Proof.
  intros H Hc. unfold main in *.
  destruct (prepare o env) as [[r | ts] tr] eqn:P.
  - cbn [fst snd] in *. subst r.
    exact (proj2 (prepare_early o env c tr P) Hc).
  - pose proof (index_tarballs_codes o env 0 ts c) as Hcodes.
    destruct (index_tarballs o env 0 ts) as [r tr'].
    cbn [fst] in *. simpl in Hc.
    destruct (Hcodes H); subst;
      repeat (destruct Hc as [Hc | Hc]; [discriminate|]); destruct Hc.
Qed.

Lemma configuration_errors_touch_nothing_witness :
  snd (main opts_default env_bad_archive) = [].
Proof.
  exact (configuration_errors_touch_nothing opts_default env_bad_archive 3
           eq_refl (or_intror (or_introl eq_refl))).
Defined.

(** ** More on the discovery *)

Section DiscoveryMore.

Variable env : Env.

Lemma gate_quarantined_iff (tb : string) :
  gate env tb = Quarantined <-> gate_check_fails env tb = true.
Proof.
  split; [| apply gate_check_fails_quarantined].
  unfold gate, gate_check_fails.
  destruct (realpath env tb) as [rp | |]; try discriminate; auto.
  destruct (negb (dirname (dirname rp) =? ARCHIVE_rp env)%string);
    [reflexivity|].
  destruct (negb (isfile env (rp ++ ".md5"))); [reflexivity|].
  destruct (getsize env rp); try discriminate; auto.
Qed.

Lemma gate_accepted_passes (tb : string) (t : tarball) :
  gate env tb = Accepted t -> gate_check_fails env tb = false.
Proof.
  intros H.
  destruct (gate_check_fails env tb) eqn:E; [| reflexivity].
  apply gate_check_fails_quarantined in E. congruence.
Qed.

(** What the discovery loop has checked for an entry of [tarballs]. *)
Lemma gate_accepted_inv (tb : string) (t : tarball) :
  gate env tb = Accepted t ->
  exists rp,
    realpath env tb = IoOk rp
    /\ dirname (dirname rp) = ARCHIVE_rp env
    /\ isfile env (rp ++ ".md5") = true
    /\ getsize env rp = IoOk (tb_size t)
    /\ tb_controller t = basename (dirname rp)
    /\ tb_path t = tb.
Proof.
  unfold gate.
  destruct (realpath env tb) as [rp | |]; try discriminate.
  destruct (dirname (dirname rp) =? ARCHIVE_rp env)%string eqn:A;
    cbn [negb]; [| discriminate].
  destruct (isfile env (rp ++ ".md5")) eqn:M; cbn [negb]; [| discriminate].
  destruct (getsize env rp) as [size | |] eqn:S; try discriminate.
  intros H. injection H as H. subst t.
  exists rp. apply String.eqb_eq in A. repeat split; auto.
Qed.

Lemma scan_partition (tbs : list string) (l : list tarball) :
  snd (scan env tbs) = Some l ->
  map tb_path l = filter (fun tb => negb (gate_check_fails env tb)) tbs
  /\ quarantined (fst (scan env tbs)) = filter (gate_check_fails env) tbs.
Proof.
  revert l.
  induction tbs as [| tb rest IH]; simpl; intros l H.
  - injection H as H. subst l. auto.
  - destruct (gate env tb) as [t | |] eqn:G.
    + rewrite (gate_accepted_passes tb t G). cbn [negb].
      destruct (scan env rest) as [tr [l' |]]; simpl in *; [| discriminate].
      injection H as H. subst l.
      destruct (IH l' eq_refl) as [IH1 IH2].
      simpl. rewrite (gate_accepted_path env tb t G). now rewrite IH1.
    + rewrite (proj1 (gate_quarantined_iff tb) G). cbn [negb].
      destruct (scan env rest) as [tr r]; simpl in *.
      destruct (IH l H) as [IH1 IH2].
      unfold quarantined in *. simpl. now rewrite IH2.
    + discriminate.
Qed.

Lemma scan_unexpected (tbs : list string) (tb : string) :
  In tb tbs -> gate env tb = Unexpected -> snd (scan env tbs) = None.
Proof.
  intros Hin G.
  induction tbs as [| tb' rest IH]; [destruct Hin|].
  simpl.
  destruct (gate env tb') as [t | |] eqn:G'.
  - destruct Hin as [-> | Hin]; [congruence|].
    specialize (IH Hin). destruct (scan env rest) as [tr r].
    simpl in *. now rewrite IH.
  - destruct Hin as [-> | Hin]; [congruence|].
    specialize (IH Hin). destruct (scan env rest) as [tr r].
    simpl in *. exact IH.
  - reflexivity.
Qed.

End DiscoveryMore.

(** X3: when the discovery loop ends without an unexpected exception,
    every link the glob yielded is either handed to [quarantine] or
    entered in [tarballs], never both and never neither: the paths of
    [tarballs] are the links that pass the four checks and the
    quarantined links are those that fail one, both in the order of
    the glob. *)
Theorem discovery_partitions_links (o : Options) (env : Env)
  (l : list tarball) :
  snd (discover o env) = Some l ->
  map tb_path l
  = filter (fun tb => negb (gate_check_fails env tb))
      (iglob env (tb_glob o env))
  /\ quarantined (fst (discover o env))
     = filter (gate_check_fails env) (iglob env (tb_glob o env)).
Proof.
  apply scan_partition.
Qed.

Lemma discovery_partitions_links_witness :
  map tb_path [(200, "host-1", tb_b)]
  = filter (fun tb => negb (gate_check_fails env_no_md5 tb))
      (iglob env_no_md5 (tb_glob opts_default env_no_md5))
  /\ quarantined (fst (discover opts_default env_no_md5))
     = filter (gate_check_fails env_no_md5)
         (iglob env_no_md5 (tb_glob opts_default env_no_md5)).
Proof.
  exact (discovery_partitions_links opts_default env_no_md5
           [(200, "host-1", tb_b)] eq_refl).
Defined.

(** X4: every entry [(size, controller, tb)] of [tarballs] is a link
    of the glob that resolves to a path two levels below the archive,
    with an [.md5] file next to it; [size] is the size of the resolved
    path and [controller] the name of its directory. *)
Theorem discovered_entries_checked (o : Options) (env : Env)
  (l : list tarball) (t : tarball) :
  snd (discover o env) = Some l ->
  In t l ->
  In (tb_path t) (iglob env (tb_glob o env))
  /\ exists rp,
       realpath env (tb_path t) = IoOk rp
       /\ dirname (dirname rp) = ARCHIVE_rp env
       /\ isfile env (rp ++ ".md5") = true
       /\ getsize env rp = IoOk (tb_size t)
       /\ tb_controller t = basename (dirname rp).
Proof.
  intros Hd Hin.
  split.
  - destruct (scan_partition env _ l Hd) as [Hp _].
    assert (Hin' : In (tb_path t) (map tb_path l)) by now apply in_map.
    rewrite Hp in Hin'. now apply filter_In in Hin'.
  - pose proof (scan_accepted env _ l Hd) as F.
    rewrite Forall_forall in F.
    destruct (gate_accepted_inv env _ t (F t Hin))
      as [rp [H1 [H2 [H3 [H4 [H5 _]]]]]].
    exists rp. auto.
Qed.

Lemma discovered_entries_checked_witness :
  In tb_b (iglob env_no_md5 (tb_glob opts_default env_no_md5))
  /\ exists rp,
       realpath env_no_md5 tb_b = IoOk rp
       /\ dirname (dirname rp) = ARCHIVE_rp env_no_md5
       /\ isfile env_no_md5 (rp ++ ".md5") = true
       /\ getsize env_no_md5 rp = IoOk 200
       /\ "host-1" = basename (dirname rp).
Proof.
  exact (discovered_entries_checked opts_default env_no_md5
           [(200, "host-1", tb_b)] (200, "host-1", tb_b) eq_refl
           (or_introl eq_refl)).
Defined.

(** X5: an exception other than [OSError] at one link ([realpath] or
    [getsize]) ends the discovery, wherever the link is in the glob:
    a run that gets to the discovery returns 12, and all it has done
    are calls to [quarantine], none of them for that link; no template
    is updated, no status posted, no tar ball opened. *)
Theorem discovery_error_aborts_run (o : Options) (env : Env) (tb : string) :
  cfg_name_missing o = false ->
  idxctx_init env = InitOk ->
  dump_index_patterns o = false ->
  dump_templates o = false ->
  validate_environment env = 0 ->
  In tb (iglob env (tb_glob o env)) ->
  gate env tb = Unexpected ->
  fst (main o env) = Return 12
  /\ Forall (fun e => exists tb', e = EvQuarantine tb') (snd (main o env))
  /\ ~ In tb (quarantined (snd (main o env))).
Proof.
  intros Hcfg Hinit Hdi Hdt Hval Hin G.
  pose proof (scan_unexpected env _ tb Hin G) as Hnone.
  assert (Hmain : main o env = (Return 12, fst (discover o env))).
  { unfold main, prepare.
    rewrite Hcfg, Hinit, Hdi, Hdt. cbv zeta. rewrite Hval. cbn [Z.eqb negb].
    unfold discover in *.
    destruct (scan env (iglob env (tb_glob o env))) as [tr_q r].
    cbn [snd] in Hnone. subst r. reflexivity. }
  rewrite Hmain. cbn [fst snd].
  split; [reflexivity|]. split; [apply discover_trace|].
  unfold discover. intros Hq.
  assert (Hall : forall tbs tb',
             In tb' (quarantined (fst (scan env tbs))) ->
             gate env tb' = Quarantined).
  { induction tbs as [| x rest IH]; simpl; intros tb' H; [destruct H|].
    destruct (gate env x) eqn:Gx.
    - destruct (scan env rest) as [tr r]; simpl in *. now apply IH.
    - destruct (scan env rest) as [tr r]; simpl in *.
      destruct H as [<- | H]; [exact Gx | now apply IH].
    - destruct H. }
  apply Hall in Hq. congruence.
Qed.

Lemma discovery_error_aborts_run_witness :
  fst (main opts_default env_scan_error) = Return 12
  /\ Forall (fun e => exists tb', e = EvQuarantine tb')
       (snd (main opts_default env_scan_error))
  /\ ~ In tb_b (quarantined (snd (main opts_default env_scan_error))).
Proof.
  exact (discovery_error_aborts_run opts_default env_scan_error tb_b
           eq_refl eq_refl eq_refl eq_refl eq_refl
           (or_intror (or_introl eq_refl)) eq_refl).
Defined.

(** ** The order of the loop *)

Section LoopOrder.

Variables (o : Options) (env : Env).

Lemma opened_app (t1 t2 : list event) :
  opened (t1 ++ t2)%list = (opened t1 ++ opened t2)%list.
Proof. apply flat_map_app. Qed.

Lemma no_item_event_opened (tr : list event) :
  Forall (fun e => is_item_event e = false) tr -> opened tr = [].
Proof.
  induction 1 as [| e tr He _ IH]; [reflexivity|].
  unfold opened in *. simpl. rewrite IH.
  destruct e; simpl in *; congruence.
Qed.

Lemma dispatch_opened (res tb_res : Z) (tb cp : string)
  (end_ts : option Z) :
  opened (fst (dispatch o env res tb_res tb cp end_ts)) = [].
Proof.
  unfold dispatch, record_and_move.
  destruct (select_branch res tb_res); reflexivity.
Qed.

(** The loop body opens its tar ball once, or stops at the sanity
    check before it. *)
Lemma process_item_opened (res : Z) (end_ts : option Z) (t : tarball) :
  (opened (fst (process_item o env res end_ts t)) = [tb_path t]
   \/ (opened (fst (process_item o env res end_ts t)) = []
       /\ snd (process_item o env res end_ts t) = ItemAbort)).
Proof.
  destruct t as [[size controller] tb].
  unfold process_item, tb_path. cbn [snd].
  destruct (negb _); [right; auto|].
  destruct (classify _) as [tb_res|]; [| left; reflexivity].
  pose proof (dispatch_opened res tb_res tb (dirname (dirname tb))
                (update_end end_ts
                   (try_block env (index_tool_data o) tb
                      (join (INCOMING_rp env) [controller])))) as D.
  destruct (dispatch o env res tb_res tb _ _) as [tr r].
  cbn [fst] in *. left.
  change (EvPbenchTarBall tb :: ?x)%list
    with ([EvPbenchTarBall tb] ++ x)%list.
  rewrite !opened_app, D.
  rewrite (no_item_event_opened _ (ie_report_no_item_event env _ tb)).
  reflexivity.
Qed.

Lemma process_items_opened (res : Z) (end_ts : option Z)
  (ts : list tarball) :
  exists n,
    opened (fst (process_items o env res end_ts ts))
    = firstn n (map tb_path ts)
    /\ (snd (process_items o env res end_ts ts) = true ->
        opened (fst (process_items o env res end_ts ts))
        = map tb_path ts).
Proof.
  revert end_ts.
  induction ts as [| t rest IH]; intros end_ts.
  - exists 0%nat. auto.
  - cbn [process_items].
    pose proof (process_item_opened res end_ts t) as Hop.
    destruct (process_item o env res end_ts t) as [tr [e' |]];
      cbn [fst snd] in *.
    + destruct Hop as [Hop | [_ Hop]]; [| discriminate].
      destruct (IH e') as [n [Hn Hall]].
      destruct (process_items o env res e' rest) as [tr' ok].
      cbv beta iota zeta. cbn [fst snd] in *.
      exists (S n). rewrite opened_app, Hop. split.
      * now rewrite Hn.
      * intros Hok. now rewrite (Hall Hok).
    + destruct Hop as [Hop | [Hop _]].
      * exists 1%nat. rewrite Hop. split; [reflexivity | discriminate].
      * exists 0%nat. rewrite Hop. split; [reflexivity | discriminate].
Qed.

End LoopOrder.

(** X6: the tar balls are opened in the order of the sorted list, the
    smallest first, each at most once and none out of turn: the tar
    balls opened in a run are a leading part of the list, and all of
    it when [main] returns 0. *)
Theorem tar_balls_opened_in_sorted_order (o : Options) (env : Env)
  (ts : list tarball) (tr : list event) :
  prepare o env = (inr ts, tr) ->
  StronglySorted (fun a b => tb_size a <= tb_size b) ts
  /\ (exists n, opened (snd (main o env)) = firstn n (map tb_path ts))
  /\ (fst (main o env) = Return 0 ->
      opened (snd (main o env)) = map tb_path ts).
Proof.
  intros Hprep.
  split.
  { destruct (prepare_tarballs o env ts tr Hprep) as [l [_ ->]].
    eapply StronglySorted_weaken; [| apply sorted_StronglySorted].
    intros a b H. apply tarball_le_spelled in H.
    destruct H as [H | [H _]]; lia. }
  assert (Htr : opened tr = []).
  { apply no_item_event_opened.
    pose proof (prepare_no_item_event o env) as F. now rewrite Hprep in F. }
  unfold main, index_tarballs. rewrite Hprep.
  destruct (post_start env).
  - destruct (tmpdir_raises env).
    { cbn [fst snd]. rewrite opened_app, Htr. cbn.
      split; [now exists 0%nat | discriminate]. }
    destruct (list_file_raises env).
    { cbn [fst snd]. rewrite opened_app, Htr. cbn.
      split; [now exists 0%nat | discriminate]. }
    destruct (process_items_opened o env 0 None ts) as [n [Hn Hall]].
    destruct (process_items o env 0 None ts) as [tr_i ok].
    cbn [fst snd] in *.
    assert (Hop : opened (tr ++ EvPostStatus "start" true
                             :: tr_i ++ finalize env)%list
                  = opened tr_i).
    { change (EvPostStatus "start" true :: tr_i ++ finalize env)%list
        with ([EvPostStatus "start" true] ++ tr_i ++ finalize env)%list.
      rewrite !opened_app, Htr. cbn. now rewrite app_nil_r. }
    rewrite Hop. split; [now exists n|].
    destruct ok; [intros _; now apply Hall | discriminate].
  - cbn [fst snd]. rewrite opened_app, Htr. cbn.
    split; [now exists 0%nat | discriminate].
Qed.

Lemma tar_balls_opened_in_sorted_order_witness :
  StronglySorted (fun a b => tb_size a <= tb_size b)
    [(100, "host", tb_a); (200, "host-1", tb_b)]
  /\ (exists n,
         opened (snd (main opts_default env_corrupt))
         = firstn n (map tb_path [(100, "host", tb_a); (200, "host-1", tb_b)]))
  /\ (fst (main opts_default env_corrupt) = Return 0 ->
      opened (snd (main opts_default env_corrupt))
      = map tb_path [(100, "host", tb_a); (200, "host-1", tb_b)]).
Proof.
  exact (tar_balls_opened_in_sorted_order opts_default env_corrupt
           [(100, "host", tb_a); (200, "host-1", tb_b)]
           [EvUpdateTemplates] eq_refl).
Defined.

(** ** The postings of a run *)

Section Postings.

Variables (o : Options) (env : Env).

Lemma status_posts_app (kind : string) (t1 t2 : list event) :
  status_posts kind (t1 ++ t2)%list
  = (status_posts kind t1 ++ status_posts kind t2)%list.
Proof. apply flat_map_app. Qed.

Lemma no_post_status_posts (kind : string) (tr : list event) :
  Forall (fun e => is_post e = false) tr -> status_posts kind tr = [].
Proof.
  induction 1 as [| e tr He _ IH]; [reflexivity|].
  unfold status_posts in *. simpl. rewrite IH.
  destruct e; simpl in *; congruence.
Qed.

Lemma loop_event_status_posts (kind : string) (tr : list event) :
  kind <> "errors" ->
  Forall (fun e => is_loop_event e = true) tr -> status_posts kind tr = [].
Proof.
  intros Hk.
  induction 1 as [| e tr He _ IH]; [reflexivity|].
  unfold status_posts in *. simpl. rewrite IH.
  destruct e; simpl in *; try reflexivity.
  apply String.eqb_eq in He. subst kind0.
  destruct ("errors" =? kind)%string eqn:E; [| reflexivity].
  apply String.eqb_eq in E. congruence.
Qed.

(** Before the [Report] is made no status is posted. *)
Lemma prepare_no_post :
  Forall (fun e => is_post e = false) (snd (prepare o env)).
Proof.
  unfold prepare.
  destruct (cfg_name_missing o); [constructor|].
  destruct (idxctx_init env); try constructor.
  destruct (dump_index_patterns o); [repeat constructor|].
  destruct (dump_templates o); [repeat constructor|].
  cbv zeta.
  destruct (negb (validate_environment env =? 0)); [constructor|].
  assert (F : Forall (fun e => is_post e = false) (fst (discover o env))).
  { eapply Forall_impl; [| apply discover_trace].
    intros e [tb ->]. reflexivity. }
  destruct (discover o env) as [tr_q [[| t l] |]]; cbn [fst snd] in *;
    try exact F.
  destruct (negb (ensure_templates env =? 0)); cbn [snd];
    apply Forall_app; split; try exact F; repeat constructor.
Qed.

Lemma ie_report_loop_event (end_ts : option Z) (tb : string) :
  Forall (fun e => is_loop_event e = true) (ie_report env end_ts tb).
Proof.
  unfold ie_report.
  destruct (ie_getsize env tb); try constructor.
  destruct (_ >? _); try constructor.
  destruct end_ts; repeat constructor.
Qed.

Lemma dispatch_loop_event (res tb_res : Z) (tb cp : string)
  (end_ts : option Z) :
  Forall (fun e => is_loop_event e = true)
    (fst (dispatch o env res tb_res tb cp end_ts)).
Proof.
  unfold dispatch, record_and_move.
  destruct (select_branch res tb_res); repeat constructor.
Qed.

Lemma process_item_loop_event (res : Z) (end_ts : option Z) (t : tarball) :
  Forall (fun e => is_loop_event e = true)
    (fst (process_item o env res end_ts t)).
Proof.
  destruct t as [[size controller] tb].
  unfold process_item.
  destruct (negb _); [constructor|].
  destruct (classify _) as [tb_res|]; [| repeat constructor].
  pose proof (dispatch_loop_event res tb_res tb (dirname (dirname tb))
                (update_end end_ts
                   (try_block env (index_tool_data o) tb
                      (join (INCOMING_rp env) [controller])))) as D.
  destruct (dispatch o env res tb_res tb _ _) as [tr r].
  cbn [fst] in *.
  constructor; [reflexivity|].
  apply Forall_app. split; [apply ie_report_loop_event | exact D].
Qed.

Lemma process_items_loop_event (res : Z) (end_ts : option Z)
  (ts : list tarball) :
  Forall (fun e => is_loop_event e = true)
    (fst (process_items o env res end_ts ts)).
Proof.
  revert end_ts.
  induction ts as [| t rest IH]; intros end_ts; [constructor|].
  cbn [process_items].
  pose proof (process_item_loop_event res end_ts t) as Ht.
  destruct (process_item o env res end_ts t) as [tr [e' |]];
    cbn [fst] in *; [| exact Ht].
  specialize (IH e').
  destruct (process_items o env res e' rest) as [tr' ok].
  cbn [fst] in *. apply Forall_app. auto.
Qed.

End Postings.

(** X7: a run that posted the [start] status and returns a status
    has posted the final [status] once, as its last call (also when
    an exception ended the loop over the tar balls).  A final
    [status] is posted only in a run that posted the [start] and
    returns.  When the temporary directory cannot be made, or the list
    of the tar balls cannot be written, the [start] is posted, an
    exception leaves [main] and no final [status] is posted. *)
Theorem start_and_final_posting (o : Options) (env : Env) :
  (forall c,
      fst (main o env) = Return c ->
      In true (status_posts "start" (snd (main o env))) ->
      status_posts "start" (snd (main o env)) = [true]
      /\ status_posts "status" (snd (main o env))
         = [negb (post_final_raises env)]
      /\ exists tr,
           snd (main o env)
           = (tr ++ [EvPostStatus "status"
                       (negb (post_final_raises env))])%list)
  /\ (status_posts "status" (snd (main o env)) <> [] ->
      status_posts "start" (snd (main o env)) = [true]
      /\ exists c, fst (main o env) = Return c)
  /\ (forall ts tr tracking_id,
        prepare o env = (inr ts, tr) ->
        post_start env = Some tracking_id ->
        tmpdir_raises env = true \/ list_file_raises env = true ->
        fst (main o env) = Propagates
        /\ status_posts "start" (snd (main o env)) = [true]
        /\ status_posts "status" (snd (main o env)) = []).
Proof.
  unfold main.
  pose proof (prepare_no_post o env) as F.
  destruct (prepare o env) as [[r | ts] tr]; cbn [fst snd] in *.
  { rewrite !(no_post_status_posts _ tr F).
    split; [intros c _ []|]. split; [congruence | discriminate]. }
  assert (Hshort : forall b,
             status_posts "start" (tr ++ [EvPostStatus "start" b])%list = [b]
             /\ status_posts "status" (tr ++ [EvPostStatus "start" b])%list
                = []).
  { intros b. rewrite !status_posts_app, !(no_post_status_posts _ tr F).
    auto. }
  unfold index_tarballs.
  destruct (post_start env) as [tracking_id |].
  2:{ cbn [fst snd]. destruct (Hshort false) as [-> ->].
      split; [intros c _ [H | []]; discriminate|].
      split; [congruence | discriminate]. }
  destruct (tmpdir_raises env) eqn:Htmp.
  { cbn [fst snd]. destruct (Hshort true) as [-> ->].
    split; [discriminate|]. split; [congruence | auto]. }
  destruct (list_file_raises env) eqn:Hlist.
  { cbn [fst snd]. destruct (Hshort true) as [-> ->].
    split; [discriminate|]. split; [congruence | auto]. }
  pose proof (process_items_loop_event o env 0 None ts) as L.
  destruct (process_items o env 0 None ts) as [tr_i ok].
  cbn [fst snd] in *.
  change (EvPostStatus "start" true :: tr_i ++ finalize env)%list
    with ([EvPostStatus "start" true] ++ tr_i ++ finalize env)%list.
  rewrite !status_posts_app.
  rewrite !(no_post_status_posts _ tr F).
  rewrite (loop_event_status_posts "start" tr_i) by (discriminate || exact L).
  rewrite (loop_event_status_posts "status" tr_i) by (discriminate || exact L).
  cbn [app status_posts flat_map finalize String.eqb Ascii.eqb Bool.eqb].
  split; [| split].
  - intros c _ _. repeat split.
    exists (tr ++ EvPostStatus "start" true :: tr_i)%list.
    now rewrite <- app_assoc.
  - intros _. split; [reflexivity | eauto].
  - intros ts' tr' id' _ _ [H | H]; discriminate.
Qed.

(** The list of the tar balls cannot be written: the [start] is
    posted and nothing after it. *)
Example list_file_failure_run :
  main opts_default env_no_list_file
  = (Propagates, [EvUpdateTemplates; EvPostStatus "start" true]).
Proof. reflexivity. Qed.

(** X8: when the templates cannot be updated, no run posts a status or
    touches a tar ball, and a run that gets to the update returns the
    status of the failure: 9 for a [TemplateError] and 12 for any other
    exception. *)
Theorem template_failure_aborts_run (o : Options) (env : Env) :
  ensure_templates env <> 0 ->
  Forall (fun e => is_post e = false /\ is_item_event e = false)
    (snd (main o env))
  /\ (In EvUpdateTemplates (snd (main o env)) ->
      fst (main o env) = Return (ensure_templates env)
      /\ (ensure_templates env = 9 \/ ensure_templates env = 12)).
Proof.
  intros Hne. unfold main.
  pose proof (prepare_no_post o env) as F1.
  pose proof (prepare_no_item_event o env) as F2.
  assert (Hprep : forall ts tr, prepare o env <> (inr ts, tr)).
  { intros ts tr. unfold prepare.
    destruct (cfg_name_missing o); [discriminate|].
    destruct (idxctx_init env); try discriminate.
    destruct (dump_index_patterns o); [discriminate|].
    destruct (dump_templates o); [discriminate|].
    cbv zeta.
    destruct (negb (validate_environment env =? 0)); [discriminate|].
    destruct (discover o env) as [tr_q [[| t l] |]]; try discriminate.
    destruct (ensure_templates env =? 0) eqn:E; [| discriminate].
    apply Z.eqb_eq in E. congruence. }
  assert (Hret : In EvUpdateTemplates (snd (prepare o env)) ->
                 fst (prepare o env) = inl (Return (ensure_templates env))).
  { unfold prepare.
    destruct (cfg_name_missing o); [intros []|].
    destruct (idxctx_init env); try (intros []).
    destruct (dump_index_patterns o); [intros [H | []]; discriminate|].
    destruct (dump_templates o); [intros [H | []]; discriminate|].
    cbv zeta.
    destruct (negb (validate_environment env =? 0)); [intros []|].
    pose proof (discover_trace o env) as Q.
    destruct (discover o env) as [tr_q [[| t l] |]]; cbn [fst snd] in *;
      try (intros H; rewrite Forall_forall in Q; apply Q in H;
           destruct H as [tb H]; discriminate).
    destruct (ensure_templates env =? 0) eqn:E; [| reflexivity].
    apply Z.eqb_eq in E. congruence. }
  destruct (prepare o env) as [[r | ts] tr] eqn:P.
  - cbn [fst snd] in *. split.
    + rewrite Forall_forall in *. intros e He. split; auto.
    + intros H. apply Hret in H. injection H as ->.
      split; [reflexivity|].
      destruct (ensure_templates_codes env) as [E | E]; [congruence | exact E].
  - exfalso. exact (Hprep ts tr eq_refl).
Qed.

Lemma template_failure_aborts_run_witness :
  Forall (fun e => is_post e = false /\ is_item_event e = false)
    (snd (main opts_default env_template_error))
  /\ (In EvUpdateTemplates (snd (main opts_default env_template_error)) ->
      fst (main opts_default env_template_error)
      = Return (ensure_templates env_template_error)
      /\ (ensure_templates env_template_error = 9
          \/ ensure_templates env_template_error = 12)).
Proof.
  apply (template_failure_aborts_run opts_default env_template_error).
  vm_compute. discriminate.
Defined.

(** ** The indexing errors file *)

Section IndexingErrorsFile.

Variables (o : Options) (env : Env).
Variables (g : string -> ie_outcome) (p : string -> bool).

Lemma filter_no_item_event (tr : list event) :
  Forall (fun e => is_item_event e = false) tr ->
  filter is_item_event tr = [].
Proof.
  induction 1 as [| e tr He _ IH]; [reflexivity|].
  simpl. now rewrite He.
Qed.

Lemma scan_with_ie_handling (tbs : list string) :
  scan (with_ie_handling g p env) tbs = scan env tbs.
Proof.
  induction tbs as [| tb rest IH]; simpl; [reflexivity|].
  now rewrite IH.
Qed.

Lemma prepare_with_ie_handling :
  prepare o (with_ie_handling g p env) = prepare o env.
Proof.
  unfold prepare, discover.
  now rewrite scan_with_ie_handling.
Qed.

Lemma process_item_with_ie_handling (res : Z) (end_ts : option Z)
  (t : tarball) :
  snd (process_item o (with_ie_handling g p env) res end_ts t)
  = snd (process_item o env res end_ts t)
  /\ filter is_item_event
       (fst (process_item o (with_ie_handling g p env) res end_ts t))
     = filter is_item_event (fst (process_item o env res end_ts t)).
Proof.
  destruct t as [[size controller] tb].
  unfold process_item.
  destruct (negb _); [auto|].
  change (try_block (with_ie_handling g p env))
    with (try_block env).
  change (INCOMING_rp (with_ie_handling g p env)) with (INCOMING_rp env).
  destruct (classify _) as [tb_res|]; [| auto].
  change (dispatch o (with_ie_handling g p env))
    with (dispatch o env).
  destruct (dispatch o env res tb_res tb _ _) as [tr r].
  cbn [fst snd]. split; [reflexivity|].
  cbn [filter is_item_event]. f_equal.
  rewrite !filter_app.
  rewrite (filter_no_item_event _
             (ie_report_no_item_event (with_ie_handling g p env) _ tb)).
  rewrite (filter_no_item_event _ (ie_report_no_item_event env _ tb)).
  reflexivity.
Qed.

Lemma process_items_with_ie_handling (res : Z) (end_ts : option Z)
  (ts : list tarball) :
  snd (process_items o (with_ie_handling g p env) res end_ts ts)
  = snd (process_items o env res end_ts ts)
  /\ filter is_item_event
       (fst (process_items o (with_ie_handling g p env) res end_ts ts))
     = filter is_item_event (fst (process_items o env res end_ts ts)).
Proof.
  revert end_ts.
  induction ts as [| t rest IH]; intros end_ts; [auto|].
  cbn [process_items].
  destruct (process_item_with_ie_handling res end_ts t) as [Hr Hf].
  destruct (process_item o (with_ie_handling g p env) res end_ts t)
    as [tr1 r1].
  destruct (process_item o env res end_ts t) as [tr2 r2].
  cbn [fst snd] in *. subst r1.
  destruct r2 as [e' |]; [| auto].
  destruct (IH e') as [IHr IHf].
  destruct (process_items o (with_ie_handling g p env) res e' rest)
    as [tr1' ok1].
  destruct (process_items o env res e' rest) as [tr2' ok2].
  cbn [fst snd] in *. split; [exact IHr|].
  rewrite !filter_app. now rewrite Hf, IHf.
Qed.

End IndexingErrorsFile.

(** X9: whatever happens in the handling of the indexing errors file
    (its size, an exception of [os.path.getsize], an exception of the
    posting of the [errors] status), the run is the same in all that
    matters: the status [main] returns, the tar balls opened, the
    ledger entries and the moves, in the same order. *)
Theorem indexing_errors_file_never_matters (o : Options) (env : Env)
  (g : string -> ie_outcome) (p : string -> bool) :
  fst (main o (with_ie_handling g p env)) = fst (main o env)
  /\ filter is_item_event (snd (main o (with_ie_handling g p env)))
     = filter is_item_event (snd (main o env)).
Proof.
  unfold main.
  rewrite prepare_with_ie_handling.
  destruct (prepare o env) as [[r | ts] tr]; [auto|].
  unfold index_tarballs.
  change (post_start (with_ie_handling g p env)) with (post_start env).
  destruct (post_start env); [| auto].
  change (tmpdir_raises (with_ie_handling g p env)) with (tmpdir_raises env).
  change (list_file_raises (with_ie_handling g p env))
    with (list_file_raises env).
  destruct (tmpdir_raises env); [auto|].
  destruct (list_file_raises env); [auto|].
  destruct (process_items_with_ie_handling o env g p 0 None ts) as [Hr Hf].
  destruct (process_items o (with_ie_handling g p env) 0 None ts)
    as [tr1 ok1].
  destruct (process_items o env 0 None ts) as [tr2 ok2].
  cbn [fst snd] in *. subst ok1. split; [reflexivity|].
  rewrite !filter_app. cbn [filter is_item_event].
  rewrite !filter_app. now rewrite Hf.
Qed.

(** ** Where a tar ball goes *)

Section Destinations.

Lemma endswith_sep_split (a : string) :
  endswith_sep a = true -> exists x, a = x ++ String sep EmptyString.
Proof.
  induction a as [| c a IH]; [discriminate|].
  simpl. destruct a as [| c' a'].
  - intros H. exists EmptyString. simpl.
    unfold is_sep in H. apply Ascii.eqb_eq in H. now subst c.
  - intros H. destruct (IH H) as [x Hx].
    exists (String c x). simpl. now rewrite <- Hx.
Qed.

(** The last component of a directory made by [os.path.join] with a
    plain name is that name. *)
Lemma basename_join_plain (cp name : string) :
  no_sep name = true -> basename (join cp [name]) = name.
Proof.
  intros Hn. rewrite join_one. unfold join2.
  rewrite (no_sep_startswith name Hn).
  destruct (is_empty cp) eqn:E.
  - destruct cp; [| discriminate]. cbn [orb append].
    unfold basename. now rewrite rsplit_no_sep.
  - cbn [orb]. destruct (endswith_sep cp) eqn:S.
    + destruct (endswith_sep_split cp S) as [x ->].
      rewrite append_assoc. cbn [append].
      now apply basename_app_sep.
    + change (cp ++ "/" ++ name) with (cp ++ String sep name).
      now apply basename_app_sep.
Qed.

Variables (o : Options) (env : Env).

(** The ledger entry and the move of a tar ball that passes the
    sanity check and gets the status [tb_res]. *)
Lemma item_move_shape (res : Z) (end_ts : option Z) (size : Z)
  (controller tb : string) (tb_res : Z) :
  basename (dirname tb) = linksrc o ->
  classify (try_block env (index_tool_data o) tb
              (join (INCOMING_rp env) [controller])) = Some tb_res ->
  exists l name,
    fst (process_item o env res end_ts (size, controller, tb))
    = EvPbenchTarBall tb
        :: (ie_report env
              (update_end end_ts
                 (try_block env (index_tool_data o) tb
                    (join (INCOMING_rp env) [controller]))) tb
              ++ [EvLedger l tb;
                  EvRename tb (join (dirname (dirname tb)) [name])])%list
    /\ ((l = Indexed /\ tb_res = 0 /\ name = linkdest o)
        \/ (l = Erred /\ tb_res = 1 /\ name = "WONT-INDEX.1")
        \/ (l = Skipped /\ In tb_res [4; 5; 6; 7; 10; 11; 12]
            /\ name = "WONT-INDEX." ++ fmt_d tb_res)).
Proof.
  intros Hsane C.
  pose proof (classify_codes _ _ C) as Hin.
  rewrite (process_item_classified o env res end_ts size controller tb
             tb_res Hsane C).
  cbv zeta. unfold dispatch.
  simpl in Hin.
  destruct Hin as [H | [H | Hrest]].
  - subst tb_res. exists Indexed, (linkdest o). split; [reflexivity|]. auto.
  - subst tb_res. exists Erred, "WONT-INDEX.1". split; [reflexivity|]. auto.
  - assert (Hge : 4 <= tb_res)
      by (repeat (destruct Hrest as [H | Hrest]; [lia|]); destruct Hrest).
    rewrite (select_branch_fatal res tb_res Hge).
    exists Skipped, ("WONT-INDEX." ++ fmt_d tb_res).
    split; [reflexivity|]. right; right. simpl. tauto.
Qed.

Lemma linkdest_plain : no_sep (linkdest o) = true.
Proof. unfold linkdest. now destruct (index_tool_data o). Qed.

Lemma linkdest_not_linksrc : linkdest o <> linksrc o.
Proof.
  unfold linkdest, linksrc, _re_idx.
  destruct (index_tool_data o), (re_index o); discriminate.
Qed.

End Destinations.

(** X10: for a tar ball that passes the sanity check and gets a status,
    the ledger and the directory agree: [indexed] goes with the
    destination of the mode, [erred] with [WONT-INDEX.1], [skipped]
    with [WONT-INDEX.<status>] for a status from 4 to 12; the
    directory is the one of that name under the controller of the
    link, and it is never the directory the link was found in. *)
Theorem ledger_and_destination_agree (o : Options) (env : Env) (res : Z)
  (end_ts : option Z) (size : Z) (controller tb : string) (tb_res : Z) :
  basename (dirname tb) = linksrc o ->
  classify (try_block env (index_tool_data o) tb
              (join (INCOMING_rp env) [controller])) = Some tb_res ->
  let tr := fst (process_item o env res end_ts (size, controller, tb)) in
  exists l name,
    ledger_entries tb tr = [l]
    /\ moves tb tr = [join (dirname (dirname tb)) [name]]
    /\ ((l = Indexed /\ tb_res = 0 /\ name = linkdest o)
        \/ (l = Erred /\ tb_res = 1 /\ name = "WONT-INDEX.1")
        \/ (l = Skipped /\ In tb_res [4; 5; 6; 7; 10; 11; 12]
            /\ name = "WONT-INDEX." ++ fmt_d tb_res))
    /\ basename (join (dirname (dirname tb)) [name]) = name
    /\ join (dirname (dirname tb)) [name] <> dirname tb.
Proof.
  intros Hsane C tr. subst tr.
  destruct (item_move_shape o env res end_ts size controller tb tb_res
              Hsane C) as [l [name [Htr Hcl]]].
  exists l, name. rewrite Htr.
  destruct (item_trace_entries tb (join (dirname (dirname tb)) [name]) l _
              (ie_report_no_item_event env
                 (update_end end_ts
                    (try_block env (index_tool_data o) tb
                       (join (INCOMING_rp env) [controller]))) tb))
    as [Hl Hm].
  split; [exact Hl|]. split; [exact Hm|]. split; [exact Hcl|].
  assert (Hplain : no_sep name = true /\ name <> linksrc o).
  { destruct Hcl as [[_ [_ ->]] | [[_ [_ ->]] | [_ [Hin ->]]]].
    - split; [apply linkdest_plain | apply linkdest_not_linksrc].
    - split; [reflexivity|].
      unfold linksrc, _re_idx.
      destruct (index_tool_data o), (re_index o); discriminate.
    - simpl in Hin.
      repeat (destruct Hin as [<- | Hin];
              [split; [reflexivity|]; unfold linksrc, _re_idx;
               destruct (index_tool_data o), (re_index o); discriminate|]).
      destruct Hin. }
  destruct Hplain as [Hns Hne].
  pose proof (basename_join_plain (dirname (dirname tb)) name Hns) as Hb.
  split; [exact Hb|].
  intros E. rewrite E in Hb. congruence.
Qed.

Lemma ledger_and_destination_agree_witness :
  let tr :=
    fst (process_item opts_default env_corrupt_late 0 None
           (100, "host", tb_a)) in
  exists l name,
    ledger_entries tb_a tr = [l]
    /\ moves tb_a tr = [join (dirname (dirname tb_a)) [name]]
    /\ ((l = Indexed /\ 11 = 0 /\ name = linkdest opts_default)
        \/ (l = Erred /\ 11 = 1 /\ name = "WONT-INDEX.1")
        \/ (l = Skipped /\ In 11 [4; 5; 6; 7; 10; 11; 12]
            /\ name = "WONT-INDEX." ++ fmt_d 11))
    /\ basename (join (dirname (dirname tb_a)) [name]) = name
    /\ join (dirname (dirname tb_a)) [name] <> dirname tb_a.
Proof.
  exact (ledger_and_destination_agree opts_default env_corrupt_late 0 None
           100 "host" tb_a 11 eq_refl eq_refl).
Defined.

(** X11: the directory a tar ball is moved to is the source directory
    of a mode of the driver only in one case: the tar ball was indexed
    without failures in a run that does not index tool data, and the
    mode is the indexing of tool data.  A tar ball in [INDEXED] or in
    a [WONT-INDEX.<n>] directory is not picked up again by any
    mode. *)
Theorem only_success_feeds_tool_data (o o' : Options) (env : Env)
  (res : Z) (end_ts : option Z) (size : Z) (controller tb : string)
  (tb_res : Z) (dest : string) :
  basename (dirname tb) = linksrc o ->
  classify (try_block env (index_tool_data o) tb
              (join (INCOMING_rp env) [controller])) = Some tb_res ->
  In dest (moves tb (fst (process_item o env res end_ts
                            (size, controller, tb)))) ->
  (basename dest = linksrc o'
   <-> tb_res = 0 /\ index_tool_data o = false
       /\ index_tool_data o' = true).
Proof.
  intros Hsane C Hin.
  destruct (item_move_shape o env res end_ts size controller tb tb_res
              Hsane C) as [l [name [Htr Hcl]]].
  rewrite Htr in Hin.
  destruct (item_trace_entries tb (join (dirname (dirname tb)) [name]) l _
              (ie_report_no_item_event env
                 (update_end end_ts
                    (try_block env (index_tool_data o) tb
                       (join (INCOMING_rp env) [controller]))) tb))
    as [_ Hm].
  rewrite Hm in Hin. destruct Hin as [<- | []].
  assert (Hns : no_sep name = true).
  { destruct Hcl as [[_ [_ ->]] | [[_ [_ ->]] | [_ [Hin ->]]]].
    - apply linkdest_plain.
    - reflexivity.
    - simpl in Hin.
      repeat (destruct Hin as [<- | Hin]; [reflexivity|]). destruct Hin. }
  rewrite (basename_join_plain _ name Hns).
  destruct Hcl as [[_ [-> ->]] | [[_ [-> ->]] | [_ [Hin ->]]]].
  - unfold linkdest, linksrc, _re_idx.
    destruct (index_tool_data o), (index_tool_data o'), (re_index o');
      split; try discriminate; try tauto;
      intros [_ [H1 H2]]; discriminate.
  - unfold linksrc, _re_idx.
    destruct (index_tool_data o'), (re_index o');
      split; try discriminate; intros [H _]; discriminate.
  - simpl in Hin.
    repeat (destruct Hin as [<- | Hin];
            [unfold linksrc, _re_idx;
             destruct (index_tool_data o'), (re_index o');
             split; try discriminate; intros [H _]; discriminate|]).
    destruct Hin.
Qed.

Lemma only_success_feeds_tool_data_witness :
  basename "/A/host/TO-INDEX-TOOL" = linksrc opts_tool_data
  <-> 0 = 0 /\ index_tool_data opts_default = false
      /\ index_tool_data opts_tool_data = true.
Proof.
  exact (only_success_feeds_tool_data opts_default opts_tool_data env_clean
           0 None 100 "host" tb_a 0 "/A/host/TO-INDEX-TOOL"
           eq_refl eq_refl (or_introl eq_refl)).
Defined.

(** ** One entry and one move for a tar ball, in the whole run *)

Section Accounting.

Variables (o : Options) (env : Env).

Lemma dispatch_shape (res tb_res : Z) (tb cp : string)
  (end_ts : option Z) :
  (fst (dispatch o env res tb_res tb cp end_ts) = []
   /\ snd (dispatch o env res tb_res tb cp end_ts) = ItemAbort)
  \/ exists l dest,
       fst (dispatch o env res tb_res tb cp end_ts)
       = [EvLedger l tb; EvRename tb dest].
Proof.
  unfold dispatch, record_and_move.
  destruct (select_branch res tb_res); cbn [fst snd]; eauto.
Qed.

Lemma ledger_entries_opened_cons (x tb : string) (tr : list event) :
  ledger_entries x (EvPbenchTarBall tb :: tr) = ledger_entries x tr.
Proof. reflexivity. Qed.

Lemma moves_opened_cons (x tb : string) (tr : list event) :
  moves x (EvPbenchTarBall tb :: tr) = moves x tr.
Proof. reflexivity. Qed.

Lemma foreign_entries (tb tb' dest : string) (l : ledger)
  (pre : list event) :
  tb' <> tb ->
  Forall (fun e => is_item_event e = false) pre ->
  let tr := EvPbenchTarBall tb
              :: (pre ++ [EvLedger l tb; EvRename tb dest])%list in
  ledger_entries tb' tr = [] /\ moves tb' tr = [].
Proof.
  intros Hne Hpre tr. subst tr.
  rewrite ledger_entries_opened_cons, moves_opened_cons.
  rewrite !ledger_entries_app, !moves_app.
  rewrite (no_item_event_ledger_entries tb' pre Hpre).
  rewrite (no_item_event_moves tb' pre Hpre).
  unfold ledger_entries, moves. simpl.
  assert (E : (tb =? tb')%string = false)
    by (apply String.eqb_neq; congruence).
  rewrite E. auto.
Qed.

(** The entries and moves of one round of the loop: none for another
    tar ball; for its own tar ball one of each, or none and the loop
    ends. *)
Lemma process_item_entries (res : Z) (end_ts : option Z) (t : tarball) :
  let tr := fst (process_item o env res end_ts t) in
  (forall tb', tb' <> tb_path t ->
               ledger_entries tb' tr = [] /\ moves tb' tr = [])
  /\ ((ledger_entries (tb_path t) tr = []
       /\ moves (tb_path t) tr = []
       /\ snd (process_item o env res end_ts t) = ItemAbort)
      \/ exists l dest,
           ledger_entries (tb_path t) tr = [l]
           /\ moves (tb_path t) tr = [dest]).
Proof.
  destruct t as [[size controller] tb].
  unfold process_item, tb_path. cbn [snd].
  destruct (negb _); [cbn; auto|].
  destruct (classify _) as [tb_res|].
  2:{ cbn [fst snd]. split; [intros tb' _; auto|]. left. auto. }
  pose proof (dispatch_shape res tb_res tb (dirname (dirname tb))
                (update_end end_ts
                   (try_block env (index_tool_data o) tb
                      (join (INCOMING_rp env) [controller])))) as D.
  pose proof (ie_report_no_item_event env
                (update_end end_ts
                   (try_block env (index_tool_data o) tb
                      (join (INCOMING_rp env) [controller]))) tb) as F.
  destruct (dispatch o env res tb_res tb _ _) as [tr r].
  cbn [fst snd] in *.
  destruct D as [[-> ->] | [l [dest ->]]].
  - rewrite app_nil_r.
    assert (Hnone : forall x,
               ledger_entries x
                 (EvPbenchTarBall tb
                    :: ie_report env
                         (update_end end_ts
                            (try_block env (index_tool_data o) tb
                               (join (INCOMING_rp env) [controller]))) tb)
               = []
               /\ moves x
                    (EvPbenchTarBall tb
                       :: ie_report env
                            (update_end end_ts
                               (try_block env (index_tool_data o) tb
                                  (join (INCOMING_rp env) [controller]))) tb)
                  = []).
    { intros x.
      rewrite ledger_entries_opened_cons, moves_opened_cons.
      split; [now apply no_item_event_ledger_entries
             | now apply no_item_event_moves]. }
    split; [intros tb' _; apply Hnone|].
    left. destruct (Hnone tb) as [H1 H2]. auto.
  - split.
    + intros tb' Hne. now apply foreign_entries.
    + right. exists l, dest. now apply item_trace_entries.
Qed.

(** A tar ball that is not in the list gets nothing in the loop. *)
Lemma process_items_foreign (res : Z) (end_ts : option Z)
  (ts : list tarball) (tb : string) :
  ~ In tb (map tb_path ts) ->
  ledger_entries tb (fst (process_items o env res end_ts ts)) = []
  /\ moves tb (fst (process_items o env res end_ts ts)) = [].
Proof.
  revert end_ts.
  induction ts as [| t rest IH]; intros end_ts Hnin; [auto|].
  cbn [process_items].
  destruct (process_item_entries res end_ts t) as [Hf _].
  assert (Hne : tb <> tb_path t) by (intros ->; apply Hnin; now left).
  destruct (Hf tb Hne) as [H1 H2].
  destruct (process_item o env res end_ts t) as [tr [e' |]];
    cbn [fst] in *; [| auto].
  assert (Hnin' : ~ In tb (map tb_path rest))
    by (intros H; apply Hnin; now right).
  destruct (IH e' Hnin') as [I1 I2].
  destruct (process_items o env res e' rest) as [tr' ok].
  cbn [fst] in *.
  rewrite ledger_entries_app, moves_app, H1, H2, I1, I2. auto.
Qed.

(** Over a list without a repeated path, every tar ball gets at most
    one entry and one move; when the loop ends without an exception,
    every tar ball of the list has got one of each. *)
Lemma process_items_entries (res : Z) (end_ts : option Z)
  (ts : list tarball) :
  NoDup (map tb_path ts) ->
  (forall tb,
      (List.length (ledger_entries tb
                 (fst (process_items o env res end_ts ts))) <= 1)%nat
      /\ (List.length (moves tb
                    (fst (process_items o env res end_ts ts))) <= 1)%nat)
  /\ (snd (process_items o env res end_ts ts) = true ->
      forall t, In t ts ->
        exists l dest,
          ledger_entries (tb_path t)
            (fst (process_items o env res end_ts ts)) = [l]
          /\ moves (tb_path t)
               (fst (process_items o env res end_ts ts)) = [dest]).
Proof.
  revert end_ts.
  induction ts as [| t rest IH]; intros end_ts Hnd.
  { split; [intros tb; cbn; auto | intros _ t []]. }
  cbn [map] in Hnd. apply NoDup_cons_iff in Hnd as [Hnin Hnd].
  cbn [process_items].
  destruct (process_item_entries res end_ts t) as [Hf Hown].
  destruct (process_item o env res end_ts t) as [tr [e' |]];
    cbn [fst snd] in *.
  - destruct (IH e' Hnd) as [Hle Hall].
    pose proof (process_items_foreign res e' rest (tb_path t) Hnin)
      as [R1 R2].
    destruct (process_items o env res e' rest) as [tr' ok].
    cbn [fst snd] in *.
    destruct Hown as [[_ [_ Habs]] | [l [dest [O1 O2]]]]; [discriminate|].
    split.
    + intros tb. rewrite ledger_entries_app, moves_app, !List.length_app.
      destruct (string_dec tb (tb_path t)) as [-> | Hne].
      * rewrite O1, O2, R1, R2. cbn. lia.
      * destruct (Hf tb Hne) as [F1 F2]. rewrite F1, F2.
        destruct (Hle tb). cbn. lia.
    + intros Hok t' [<- | Hin].
      * exists l, dest.
        now rewrite ledger_entries_app, moves_app, O1, O2, R1, R2.
      * destruct (Hall Hok t' Hin) as [l' [dest' [A1 A2]]].
        exists l', dest'.
        assert (Hne : tb_path t' <> tb_path t).
        { intros E. apply Hnin. rewrite <- E. now apply in_map. }
        destruct (Hf _ Hne) as [F1 F2].
        now rewrite ledger_entries_app, moves_app, F1, F2, A1, A2.
  - split; [| discriminate].
    intros tb.
    destruct (string_dec tb (tb_path t)) as [-> | Hne].
    + destruct Hown as [[-> [-> _]] | [l [dest [-> ->]]]]; cbn; lia.
    + destruct (Hf tb Hne) as [-> ->]. cbn. lia.
Qed.

(** The glob yields no link twice: then neither does the sorted
    list. *)
Lemma prepare_NoDup (ts : list tarball) (tr : list event) :
  NoDup (iglob env (tb_glob o env)) ->
  prepare o env = (inr ts, tr) ->
  NoDup (map tb_path ts).
Proof.
  intros Hnd Hprep.
  destruct (prepare_tarballs o env ts tr Hprep) as [l [Hd ->]].
  destruct (scan_partition env _ l Hd) as [Hp _].
  eapply Permutation_NoDup.
  - apply Permutation_map. apply sorted_perm.
  - rewrite Hp. now apply NoDup_filter.
Qed.

End Accounting.

Section RunAccounting.

Variables (o : Options) (env : Env).

(** The entries and moves of a run are those of its loop. *)
Lemma main_entries (tb : string) :
  (exists ts tr tracking_id,
      prepare o env = (inr ts, tr)
      /\ post_start env = Some tracking_id
      /\ ledger_entries tb (snd (main o env))
         = ledger_entries tb (fst (process_items o env 0 None ts))
      /\ moves tb (snd (main o env))
         = moves tb (fst (process_items o env 0 None ts))
      /\ fst (main o env)
         = Return (if snd (process_items o env 0 None ts) then 0 else 12))
  \/ (ledger_entries tb (snd (main o env)) = []
      /\ moves tb (snd (main o env)) = []
      /\ (fst (main o env) = Return 0 ->
          dump_index_patterns o = true \/ dump_templates o = true
          \/ snd (discover o env) = Some [])).
Proof.
  unfold main.
  pose proof (prepare_no_item_event o env) as F.
  destruct (prepare o env) as [[r | ts] tr] eqn:P; cbn [fst snd] in *.
  - right.
    split; [now apply no_item_event_ledger_entries|].
    split; [now apply no_item_event_moves|].
    intros ->. revert P. unfold prepare.
    destruct (cfg_name_missing o); [discriminate|].
    destruct (idxctx_init env); try discriminate.
    destruct (dump_index_patterns o); [auto|].
    destruct (dump_templates o); [auto|].
    cbv zeta.
    destruct (negb (validate_environment env =? 0)) eqn:V.
    { intros H. injection H as H _. rewrite H in V. discriminate. }
    destruct (discover o env) as [tr_q [[| t l] |]]; cbn [snd]; auto;
      [| discriminate].
    destruct (negb (ensure_templates env =? 0)) eqn:T; [| discriminate].
    intros H. injection H as H _. rewrite H in T. discriminate.
  - unfold index_tarballs.
    assert (Hshort : forall b,
               ledger_entries tb (tr ++ [EvPostStatus "start" b])%list = []
               /\ moves tb (tr ++ [EvPostStatus "start" b])%list = []).
    { intros b. rewrite ledger_entries_app, moves_app.
      rewrite (no_item_event_ledger_entries tb tr F).
      rewrite (no_item_event_moves tb tr F). auto. }
    destruct (post_start env) as [tracking_id |].
    + destruct (tmpdir_raises env).
      { right. cbn [fst snd]. destruct (Hshort true) as [-> ->].
        split; [reflexivity|]. split; [reflexivity | discriminate]. }
      destruct (list_file_raises env).
      { right. cbn [fst snd]. destruct (Hshort true) as [-> ->].
        split; [reflexivity|]. split; [reflexivity | discriminate]. }
      left. exists ts, tr, tracking_id.
      destruct (process_items o env 0 None ts) as [tr_i ok].
      cbn [fst snd].
      change (EvPostStatus "start" true :: tr_i ++ finalize env)%list
        with ([EvPostStatus "start" true] ++ tr_i ++ finalize env)%list.
      rewrite !ledger_entries_app, !moves_app.
      rewrite (no_item_event_ledger_entries tb tr F).
      rewrite (no_item_event_moves tb tr F).
      cbn. rewrite !app_nil_r. auto.
    + right. cbn [fst snd].
      rewrite ledger_entries_app, moves_app.
      rewrite (no_item_event_ledger_entries tb tr F).
      rewrite (no_item_event_moves tb tr F).
      cbn. split; [reflexivity|]. split; [reflexivity | discriminate].
Qed.

End RunAccounting.

(** X12: when the glob yields no link twice, no tar ball is entered
    in the ledgers more than once in a run (so never in two ledgers),
    and no tar ball is moved more than once. *)
Theorem at_most_one_entry_and_move (o : Options) (env : Env) (tb : string) :
  NoDup (iglob env (tb_glob o env)) ->
  (List.length (ledger_entries tb (snd (main o env))) <= 1)%nat
  /\ (List.length (moves tb (snd (main o env))) <= 1)%nat.
Proof.
  intros Hnd.
  destruct (main_entries o env tb)
    as [[ts [tr [id [P [_ [-> [-> _]]]]]]] | [-> [-> _]]].
  - apply (proj1 (process_items_entries o env 0 None ts
                    (prepare_NoDup o env ts tr Hnd P)) tb).
  - cbn. lia.
Qed.

Lemma at_most_one_entry_and_move_witness :
  (List.length (ledger_entries tb_a (snd (main opts_default env_tie)))
   <= 1)%nat
  /\ (List.length (moves tb_a (snd (main opts_default env_tie))) <= 1)%nat.
Proof.
  apply (at_most_one_entry_and_move opts_default env_tie tb_a).
  vm_compute.
  repeat constructor; simpl; intuition discriminate.
Defined.

(** X13: what the status 0 means.  When [main] returns 0, was not
    asked to dump the index patterns or the templates, and the glob
    yielded no link twice, every tar ball that passed the checks of
    the discovery has been entered in one ledger and moved once. *)
Theorem status_0_accounts_for_all (o : Options) (env : Env)
  (l : list tarball) (t : tarball) :
  dump_index_patterns o = false ->
  dump_templates o = false ->
  NoDup (iglob env (tb_glob o env)) ->
  fst (main o env) = Return 0 ->
  snd (discover o env) = Some l ->
  In t l ->
  exists ldg dest,
    ledger_entries (tb_path t) (snd (main o env)) = [ldg]
    /\ moves (tb_path t) (snd (main o env)) = [dest].
Proof.
  intros Hdi Hdt Hnd H0 Hd Hin.
  destruct (main_entries o env (tb_path t))
    as [[ts [tr [id [P [_ [-> [-> Hret]]]]]]] | [_ [_ Hz]]].
  - destruct (prepare_tarballs o env ts tr P) as [l' [Hd' ->]].
    assert (l' = l) by congruence. subst l'.
    pose proof (process_items_entries o env 0 None (sorted l)
                  (prepare_NoDup o env (sorted l) tr Hnd P)) as [_ Hall].
    apply Hall.
    + rewrite H0 in Hret.
      destruct (snd (process_items o env 0 None (sorted l)));
        [reflexivity | discriminate].
    + eapply Permutation_in; [apply sorted_perm | exact Hin].
  - destruct (Hz H0) as [E | [E | E]]; try congruence.
    rewrite Hd in E. injection E as ->. destruct Hin.
Qed.

Lemma status_0_accounts_for_all_witness :
  exists ldg dest,
    ledger_entries (tb_path (100, "host", tb_a))
      (snd (main opts_default env_corrupt_late)) = [ldg]
    /\ moves (tb_path (100, "host", tb_a))
         (snd (main opts_default env_corrupt_late)) = [dest].
Proof.
  apply (status_0_accounts_for_all opts_default env_corrupt_late
           [(100, "host", tb_a); (200, "host-1", tb_b)]
           (100, "host", tb_a)).
  - reflexivity.
  - reflexivity.
  - vm_compute. repeat constructor; simpl; intuition discriminate.
  - reflexivity.
  - reflexivity.
  - simpl. auto.
Defined.

(** ** The counts of the report *)

Section Counts.

Lemma count_text_lines_print_line (tb rest : string) (b : bool) :
  no_linebreak tb = true ->
  count_text_lines b false (print_line tb ++ rest)
  = S (count_text_lines false false rest).
Proof.
  revert b.
  induction tb as [| c tb IH]; intros b H.
  - reflexivity.
  - simpl in H.
    apply andb_true_iff in H as [H Htb].
    apply andb_true_iff in H as [Hlf Hcr].
    apply negb_true_iff in Hlf, Hcr.
    unfold print_line in *. simpl. rewrite Hlf, Hcr.
    now apply IH.
Qed.

Lemma count_text_lines_ledger (ls : list string) :
  Forall (fun tb => no_linebreak tb = true) ls ->
  count_text_lines false false
    (fold_right (fun tb acc => print_line tb ++ acc) EmptyString ls)
  = List.length ls.
Proof.
  induction 1 as [| tb ls Htb _ IH]; [reflexivity|].
  cbn [fold_right List.length].
  rewrite (count_text_lines_print_line tb _ false Htb).
  now rewrite IH.
Qed.

Lemma ledger_lines_app (l : ledger) (t1 t2 : list event) :
  ledger_lines l (t1 ++ t2)%list
  = (ledger_lines l t1 ++ ledger_lines l t2)%list.
Proof. apply flat_map_app. Qed.

Lemma no_item_event_ledger_lines (l : ledger) (tr : list event) :
  Forall (fun e => is_item_event e = false) tr -> ledger_lines l tr = [].
Proof.
  induction 1 as [| e tr He _ IH]; [reflexivity|].
  unfold ledger_lines in *. simpl. rewrite IH.
  destruct e; simpl in *; congruence.
Qed.

End Counts.

Section RunCounts.

Variables (o : Options) (env : Env).

Lemma printed_app (t1 t2 : list event) :
  printed (t1 ++ t2)%list = (printed t1 + printed t2)%nat.
Proof.
  unfold printed. rewrite !ledger_lines_app, !List.length_app. lia.
Qed.

Lemma no_item_event_printed (tr : list event) :
  Forall (fun e => is_item_event e = false) tr -> printed tr = 0%nat.
Proof.
  intros F. unfold printed.
  now rewrite !(no_item_event_ledger_lines _ tr F).
Qed.

(** A round of the loop that ends without an exception has printed
    the path of its tar ball to one ledger file, and nothing else. *)
Lemma process_item_printed (res : Z) (end_ts e' : option Z) (t : tarball) :
  snd (process_item o env res end_ts t) = ItemDone e' ->
  printed (fst (process_item o env res end_ts t)) = 1%nat
  /\ forall l x,
       In x (ledger_lines l (fst (process_item o env res end_ts t))) ->
       x = tb_path t.
Proof.
  destruct t as [[size controller] tb].
  unfold process_item, tb_path. cbn [snd].
  destruct (negb _); [discriminate|].
  destruct (classify _) as [tb_res|]; [| discriminate].
  pose proof (dispatch_shape o env res tb_res tb (dirname (dirname tb))
                (update_end end_ts
                   (try_block env (index_tool_data o) tb
                      (join (INCOMING_rp env) [controller])))) as D.
  pose proof (ie_report_no_item_event env
                (update_end end_ts
                   (try_block env (index_tool_data o) tb
                      (join (INCOMING_rp env) [controller]))) tb) as F.
  destruct (dispatch o env res tb_res tb _ _) as [tr r].
  cbn [fst snd] in *. intros ->.
  destruct D as [[_ D] | [l [dest ->]]]; [discriminate|].
  change (EvPbenchTarBall tb :: ?x)%list
    with ([EvPbenchTarBall tb] ++ x)%list.
  split.
  - rewrite !printed_app, (no_item_event_printed _ F).
    destruct l; reflexivity.
  - intros l' x. rewrite !ledger_lines_app.
    rewrite (no_item_event_ledger_lines l' _ F).
    cbn. destruct (ledger_eqb l l'); cbn; intuition.
Qed.

Lemma process_items_printed (res : Z) (end_ts : option Z)
  (ts : list tarball) :
  snd (process_items o env res end_ts ts) = true ->
  printed (fst (process_items o env res end_ts ts)) = List.length ts
  /\ forall l x,
       In x (ledger_lines l (fst (process_items o env res end_ts ts))) ->
       In x (map tb_path ts).
Proof.
  revert end_ts.
  induction ts as [| t rest IH]; intros end_ts.
  { intros _. split; [reflexivity | intros l x []]. }
  cbn [process_items].
  pose proof (fun e' => process_item_printed res end_ts e' t) as Ht.
  destruct (process_item o env res end_ts t) as [tr [e' |]];
    cbn [fst snd] in *; [| discriminate].
  destruct (Ht e' eq_refl) as [H1 Hx].
  specialize (IH e').
  destruct (process_items o env res e' rest) as [tr' ok].
  cbn [fst snd] in *. intros Hok.
  destruct (IH Hok) as [I1 Ix].
  split.
  - rewrite printed_app, H1, I1. reflexivity.
  - intros l x. rewrite ledger_lines_app. intros H.
    apply in_app_or in H as [H | H].
    + left. symmetry. now apply (Hx l).
    + right. now apply (Ix l).
Qed.

End RunCounts.

(** X14: [_count_lines] of a ledger file is the number of paths
    entered in the ledger, when no path has a line feed or a carriage
    return in it; for a ledger without an entry there is no file and
    the count is 0. *)
Theorem count_lines_of_ledger (l : ledger) (tr : list event) :
  Forall (fun tb => no_linebreak tb = true) (ledger_lines l tr) ->
  _count_lines (ledger_file l tr) = List.length (ledger_lines l tr).
Proof.
  intros F. unfold ledger_file, _count_lines.
  destruct (ledger_lines l tr) as [| tb ls] eqn:E; [reflexivity|].
  now apply count_text_lines_ledger.
Qed.

Lemma count_lines_of_ledger_witness :
  _count_lines (ledger_file Skipped (snd (main opts_default env_corrupt_late)))
  = List.length
      (ledger_lines Skipped (snd (main opts_default env_corrupt_late))).
Proof.
  apply (count_lines_of_ledger Skipped
           (snd (main opts_default env_corrupt_late))).
  vm_compute. repeat constructor.
Defined.

(** X15: when [main] returns 0 after the loop over the tar balls, and
    no path has a line break in it, the three counts of the report,
    [idx], [skp] and [err], add up to the number of tar balls in the
    list. *)
Theorem report_counts_add_up (o : Options) (env : Env)
  (ts : list tarball) (tr : list event) :
  prepare o env = (inr ts, tr) ->
  fst (main o env) = Return 0 ->
  Forall (fun t => no_linebreak (tb_path t) = true) ts ->
  let '(idx, skp, err) := report_counts (snd (main o env)) in
  (idx + skp + err)%nat = List.length ts.
Proof.
  intros P H0 Hnl.
  unfold report_counts.
  revert H0. unfold main, index_tarballs. rewrite P.
  destruct (post_start env); [| discriminate].
  destruct (tmpdir_raises env); [discriminate|].
  destruct (list_file_raises env); [discriminate|].
  pose proof (process_items_printed o env 0 None ts) as Hp.
  destruct (process_items o env 0 None ts) as [tr_i ok].
  cbn [fst snd] in *.
  destruct ok; [intros _ | discriminate].
  destruct (Hp eq_refl) as [Hn Hx].
  assert (F : Forall (fun e => is_item_event e = false) tr).
  { pose proof (prepare_no_item_event o env) as F. now rewrite P in F. }
  assert (Hl : forall l,
             ledger_lines l
               (tr ++ EvPostStatus "start" true :: tr_i ++ finalize env)%list
             = ledger_lines l tr_i).
  { intros l.
    change (EvPostStatus "start" true :: tr_i ++ finalize env)%list
      with ([EvPostStatus "start" true] ++ tr_i ++ finalize env)%list.
    rewrite !ledger_lines_app, (no_item_event_ledger_lines l tr F).
    cbn. now rewrite app_nil_r. }
  assert (Hc : forall l,
             _count_lines
               (ledger_file l
                  (tr ++ EvPostStatus "start" true
                      :: tr_i ++ finalize env)%list)
             = List.length (ledger_lines l tr_i)).
  { intros l.
    unfold ledger_file, _count_lines. rewrite Hl.
    destruct (ledger_lines l tr_i) as [| tb ls] eqn:E; [reflexivity|].
    apply count_text_lines_ledger.
    rewrite Forall_forall. intros x Hin.
    rewrite <- E in Hin. apply Hx in Hin.
    apply in_map_iff in Hin as [t [<- Hin]].
    rewrite Forall_forall in Hnl. now apply Hnl. }
  rewrite !Hc. exact Hn.
Qed.

Lemma report_counts_add_up_witness :
  let '(idx, skp, err) :=
    report_counts (snd (main opts_default env_corrupt_late)) in
  (idx + skp + err)%nat
  = List.length [(100, "host", tb_a); (200, "host-1", tb_b)].
Proof.
  apply (report_counts_add_up opts_default env_corrupt_late
           [(100, "host", tb_a); (200, "host-1", tb_b)]
           [EvUpdateTemplates]).
  - reflexivity.
  - reflexivity.
  - repeat constructor.
Defined.

(** ** The name of the command *)

Section CommandName.

Lemma substring_all (s : string) (m : nat) :
  (String.length s <= m)%nat -> substring 0 m s = s.
Proof.
  revert m.
  induction s as [| c s IH]; intros m H.
  - destruct m; reflexivity.
  - destruct m as [| m]; [simpl in H; lia|].
    simpl. rewrite IH; [reflexivity | simpl in H; lia].
Qed.

Lemma substring_split (s : string) (n : nat) :
  (n <= String.length s)%nat ->
  substring 0 n s ++ substring n (String.length s - n) s = s.
Proof.
  revert n.
  induction s as [| c s IH]; intros n H.
  - destruct n; [reflexivity | simpl in H; lia].
  - destruct n as [| n].
    + change (substring 0 0 (String c s)) with EmptyString.
      cbn [append]. rewrite Nat.sub_0_r. now apply substring_all.
    + cbn [substring String.length Nat.sub append].
      rewrite IH; [reflexivity | simpl in H; lia].
Qed.

Lemma substring_length_le (s : string) (n m : nat) :
  (String.length (substring n m s) <= m)%nat.
Proof.
  revert n m.
  induction s as [| c s IH]; intros n m.
  - destruct n, m; simpl; lia.
  - destruct n as [| n].
    + destruct m as [| m]; simpl; [lia|].
      specialize (IH 0%nat m). lia.
    + simpl. apply IH.
Qed.

(** A name that ends in [.py] is the rest of it followed by [.py]. *)
Lemma last3_py (s : string) :
  last3 s = ".py" -> s = drop_last3 s ++ ".py".
Proof.
  unfold last3, drop_last3. intros H.
  destruct (Nat.le_gt_cases 3 (String.length s)) as [Hlen | Hlen].
  - pose proof (substring_split s (String.length s - 3)) as Hs.
    replace (String.length s - (String.length s - 3))%nat with 3%nat
      in Hs by lia.
    rewrite H in Hs. symmetry. apply Hs. lia.
  - replace (String.length s - 3)%nat with 0%nat in * by lia.
    rewrite substring_all in H by lia.
    subst s. simpl in Hlen. lia.
Qed.

End CommandName.

(** X16: the name of the command decides first.  When the last
    component of [sys.argv[0]] is [pbench-index] or [pbench-index.py],
    the arguments are parsed; if the parser exits, the command exits
    with the status of the parser and has done nothing, otherwise it
    runs [main] and exits with the status [main] returns (with 1 when
    an exception leaves [main]).  For any other name the command exits
    with status 1 before the arguments are parsed, and has done
    nothing. *)
Theorem command_name_decides (argv0 : string) (args : parse_outcome)
  (env : Env) :
  ((basename argv0 = "pbench-index" \/ basename argv0 = "pbench-index.py")
   /\ command argv0 args env
      = match args with
        | ParserExits status => (status, [])
        | Parsed o =>
            match main o env with
            | (Return status, tr) => (status, tr)
            | (Propagates, tr) => (1, tr)
            end
        end)
  \/ (basename argv0 <> "pbench-index"
      /\ basename argv0 <> "pbench-index.py"
      /\ command argv0 args env = (1, [])).
Proof.
  assert (Hname : run_name argv0 = "pbench-index"
                  <-> basename argv0 = "pbench-index"
                      \/ basename argv0 = "pbench-index.py").
  { unfold run_name.
    destruct (last3 (basename argv0) =? ".py")%string eqn:E; cbn [negb].
    - apply String.eqb_eq in E. split.
      + intros H. right. rewrite (last3_py _ E), H. reflexivity.
      + intros [H | H]; rewrite H in *; [discriminate E | reflexivity].
    - split; [auto|].
      intros [H | H]; [exact H|].
      rewrite H in E. discriminate E. }
  unfold command.
  destruct (run_name argv0 =? "pbench-index")%string eqn:E; cbn [negb].
  - left. apply String.eqb_eq in E. split; [now apply Hname | reflexivity].
  - right. apply String.eqb_neq in E.
    repeat split; try reflexivity; intros H; apply E, Hname; auto.
Qed.

(** A command line the parser does not accept. *)
Example command_rejected_arguments :
  command "/opt/pbench-server/bin/pbench-index" (ParserExits 2) env_clean
  = (2, []).
Proof. reflexivity. Qed.

(** ** The [errors] status and the variable [end] *)

Section ErrorsPosting.

Variables (o : Options) (env : Env).

Lemma ie_report_unbound_end (tb : string) : ie_report env None tb = [].
Proof.
  unfold ie_report.
  destruct (ie_getsize env tb); try reflexivity.
  now destruct (_ >? _).
Qed.

Lemma dispatch_no_post (res tb_res : Z) (tb cp : string)
  (end_ts : option Z) :
  Forall (fun e => is_post e = false)
    (fst (dispatch o env res tb_res tb cp end_ts)).
Proof.
  unfold dispatch, record_and_move.
  destruct (select_branch res tb_res); repeat constructor.
Qed.

Lemma process_items_all_raise (res : Z) (ts : list tarball) :
  Forall (fun t =>
            exists st e,
              try_block env (index_tool_data o) (tb_path t)
                (join (INCOMING_rp env) [tb_controller t]) = Raises st e) ts ->
  Forall (fun e => is_post e = false)
    (fst (process_items o env res None ts)).
Proof.
  induction 1 as [| t rest [st [e Ht]] _ IH]; [constructor|].
  cbn [process_items].
  destruct t as [[size controller] tb].
  unfold tb_path, tb_controller in Ht. cbn [fst snd] in Ht.
  unfold process_item.
  destruct (negb _); [constructor|].
  rewrite Ht. cbn [update_end].
  destruct (classify (Raises st e)) as [tb_res|]; [| repeat constructor].
  rewrite ie_report_unbound_end. cbn [app].
  pose proof (dispatch_no_post res tb_res tb (dirname (dirname tb)) None)
    as D.
  destruct (dispatch o env res tb_res tb (dirname (dirname tb)) None)
    as [tr [e' |]] eqn:Dq; cbn [fst] in *.
  - assert (e' = None).
    { revert Dq. unfold dispatch, record_and_move.
      destruct (select_branch res tb_res); try discriminate;
        destruct (rename_raises env tb _); intros H; inversion H;
        reflexivity. }
    subst e'.
    destruct (process_items o env res None rest) as [tr' ok].
    cbn [fst] in *.
    constructor; [reflexivity|]. apply Forall_app. auto.
  - constructor; [reflexivity | exact D].
Qed.

End ErrorsPosting.

(** X17: the [errors] status needs the end time of an [es_index] call
    that returned.  In a run in which the [try] block raises for every
    tar ball, no [errors] status is posted, whatever the indexing
    errors files hold: the only postings of the run are the [start]
    and the final [status]. *)
Theorem no_errors_posting_without_end_time (o : Options) (env : Env)
  (ts : list tarball) (tr : list event) :
  prepare o env = (inr ts, tr) ->
  Forall (fun t =>
            exists st e,
              try_block env (index_tool_data o) (tb_path t)
                (join (INCOMING_rp env) [tb_controller t]) = Raises st e) ts ->
  status_posts "errors" (snd (main o env)) = []
  /\ forall kind posted,
       In (EvPostStatus kind posted) (snd (main o env)) ->
       kind = "start" \/ kind = "status".
Proof.
  intros P Hall.
  pose proof (process_items_all_raise o env 0 ts Hall) as L.
  pose proof (prepare_no_post o env) as F. rewrite P in F. cbn [snd] in F.
  unfold main, index_tarballs. rewrite P.
  assert (Hshort : forall b,
             status_posts "errors" (tr ++ [EvPostStatus "start" b])%list = []
             /\ forall kind posted,
                  In (EvPostStatus kind posted)
                    (tr ++ [EvPostStatus "start" b])%list ->
                  kind = "start" \/ kind = "status").
  { intros b. split.
    - rewrite status_posts_app, (no_post_status_posts _ tr F). reflexivity.
    - intros kind posted Hin. rewrite Forall_forall in F.
      apply in_app_or in Hin as [Hin | Hin];
        [apply F in Hin; discriminate|].
      destruct Hin as [Hin | []]. injection Hin as <- _. now left. }
  destruct (post_start env).
  - destruct (tmpdir_raises env); [cbn [snd]; apply Hshort|].
    destruct (list_file_raises env); [cbn [snd]; apply Hshort|].
    destruct (process_items o env 0 None ts) as [tr_i ok].
    cbn [fst snd] in *.
    change (EvPostStatus "start" true :: tr_i ++ finalize env)%list
      with ([EvPostStatus "start" true] ++ tr_i ++ finalize env)%list.
    split.
    + rewrite !status_posts_app.
      rewrite (no_post_status_posts _ tr F), (no_post_status_posts _ tr_i L).
      reflexivity.
    + intros kind posted Hin.
      rewrite Forall_forall in F, L.
      apply in_app_or in Hin as [Hin | Hin];
        [apply F in Hin; discriminate|].
      apply in_app_or in Hin as [Hin | Hin].
      { destruct Hin as [Hin | []]. injection Hin as <- _. now left. }
      apply in_app_or in Hin as [Hin | Hin];
        [apply L in Hin; discriminate|].
      destruct Hin as [Hin | []]. injection Hin as <- _. now right.
  - cbn [snd]. split.
    + rewrite status_posts_app, (no_post_status_posts _ tr F). reflexivity.
    + intros kind posted Hin. rewrite Forall_forall in F.
      apply in_app_or in Hin as [Hin | Hin];
        [apply F in Hin; discriminate|].
      destruct Hin as [Hin | []]. injection Hin as <- _. now left.
Qed.

Lemma no_errors_posting_without_end_time_witness :
  status_posts "errors" (snd (main opts_default env_all_raise)) = []
  /\ forall kind posted,
       In (EvPostStatus kind posted) (snd (main opts_default env_all_raise)) ->
       kind = "start" \/ kind = "status".
Proof.
  apply (no_errors_posting_without_end_time opts_default env_all_raise
           [(100, "host", tb_a); (200, "host-1", tb_b)]
           [EvUpdateTemplates]).
  - reflexivity.
  - repeat (constructor; [exists PtbBound, BadDate; reflexivity|]).
    constructor.
Defined.

(** Once [es_index] has returned for a tar ball, the end time it left
    serves the [errors] status of the tar balls after it. *)
Example errors_posting_with_earlier_end_time :
  status_posts "errors" (snd (main opts_default env_second_raises))
  = [true; true].
Proof. reflexivity. Qed.

(** ** The sanity check and the sorted list *)

Lemma sanity_check_of_glob_witness :
  basename (dirname (join "/A" ["host"; linksrc opts_tool_data; "a.tar.xz"]))
  = linksrc opts_tool_data.
Proof.
  apply (sanity_check_of_glob opts_tool_data "/A" "host" "a.tar.xz").
  - reflexivity.
  - discriminate.
  - reflexivity.
Defined.

(** A list that is in the order of the tuples is left as it is by
    [sorted], and only such a list; sorting twice is sorting once. *)
Theorem sorted_fixes_ordered_lists (l : list tarball) :
  (sorted l = l <-> StronglySorted tarball_le l)
  /\ sorted (sorted l) = sorted l.
Proof.
  assert (Hfix : forall l', StronglySorted tarball_le l' -> sorted l' = l').
  { intros l' H.
    apply StronglySorted_perm_eq;
      [apply sorted_StronglySorted | exact H |].
    apply Permutation_sym, sorted_perm. }
  split.
  - split; [| apply Hfix].
    intros <-. apply sorted_StronglySorted.
  - apply Hfix, sorted_StronglySorted.
Qed.

(** ** The subject of the report *)

Section Subject.

Lemma string_of_uint_digits (d : uint) :
  all_digits (NilEmpty.string_of_uint d) = true.
Proof.
  induction d; simpl; auto.
Qed.

Lemma fmt_nat_digits (n : nat) : all_digits (fmt_nat n) = true.
Proof.
  unfold fmt_nat, fmt_d.
  destruct (Z.of_nat n) as [| q | q] eqn:E; [reflexivity | | lia].
  cbn [Z.to_int NilZero.string_of_int].
  unfold NilZero.string_of_uint.
  pose proof (string_of_uint_digits (Pos.to_uint q)) as H.
  destruct (Pos.to_uint q); [reflexivity | exact H..].
Qed.

Lemma fmt_nat_inj (n m : nat) : fmt_nat n = fmt_nat m -> n = m.
Proof.
  unfold fmt_nat, fmt_d. intros H.
  assert (Hok : forall k,
             Z.to_int (Z.of_nat k) <> Pos Nil
             /\ Z.to_int (Z.of_nat k) <> Neg Nil).
  { intros k. destruct (Z.of_nat k) as [| q | q]; cbn [Z.to_int].
    - split; discriminate.
    - split; [| discriminate].
      intros E. injection E as E.
      exact (DecimalPos.Unsigned.to_uint_nonnil q E).
    - split; [discriminate|].
      intros E. injection E as E.
      exact (DecimalPos.Unsigned.to_uint_nonnil q E). }
  apply (f_equal NilZero.int_of_string) in H.
  rewrite !NilZero.isi in H by apply Hok.
  injection H as H.
  apply DecimalZ.to_int_inj in H. lia.
Qed.

(** Two numbers, each followed by a character that is no digit: the
    numbers end where the character is. *)
Lemma digits_then_other (x y r r' : string) (c c' : ascii) :
  all_digits x = true -> all_digits y = true ->
  all_digits (String c EmptyString) = false ->
  all_digits (String c' EmptyString) = false ->
  x ++ String c r = y ++ String c' r' ->
  x = y /\ String c r = String c' r'.
Proof.
  intros Hx Hy Hc Hc'. revert y Hy.
  induction x as [| a x IH]; intros [| b y] Hy H; simpl in *.
  - auto.
  - injection H as -> _.
    apply andb_true_iff in Hy as [Hb _].
    rewrite Hb in Hc. discriminate.
  - injection H as -> _.
    apply andb_true_iff in Hx as [Ha _].
    rewrite Ha in Hc'. discriminate.
  - injection H as -> H.
    apply andb_true_iff in Hx as [_ Hx].
    apply andb_true_iff in Hy as [_ Hy].
    destruct (IH Hx y Hy H) as [-> E]. auto.
Qed.

Lemma fmt_nat_then_space (n m : nat) (r r' : string) :
  fmt_nat n ++ String " " r = fmt_nat m ++ String " " r' ->
  n = m /\ r = r'.
Proof.
  intros H.
  apply digits_then_other in H as [H E];
    try apply fmt_nat_digits; try reflexivity.
  split; [now apply fmt_nat_inj | now injection E].
Qed.

End Subject.

(** X20: the subject of the report tells the three counts: two
    subjects of the same run that are the same text come from the same
    numbers of indexed, skipped and erred results. *)
Theorem subject_tells_the_counts (name ts : string)
  (idx skp err idx' skp' err' : nat) :
  subject name ts idx skp err = subject name ts idx' skp' err' ->
  idx = idx' /\ skp = skp' /\ err = err'.
Proof.
  unfold subject. intros H.
  destruct (Nat.ltb_spec 0 err) as [He | He];
    destruct (Nat.ltb_spec 0 skp) as [Hs | Hs];
    destruct (Nat.ltb_spec 0 err') as [He' | He'];
    destruct (Nat.ltb_spec 0 skp') as [Hs' | Hs'];
    apply append_inj_l in H; cbn [append] in H; injection H as H;
    apply append_inj_l in H; cbn [append] in H;
    injection H as H;
    apply fmt_nat_then_space in H as [-> H];
    cbn [append] in H;
    try discriminate H;
    repeat (injection H as H);
    try discriminate H;
    try (apply fmt_nat_then_space in H as [-> H]; cbn [append] in H;
         try discriminate H; repeat (injection H as H);
         try discriminate H);
    try (apply fmt_nat_then_space in H as [-> H]);
    repeat split; try reflexivity; lia.
Qed.

Lemma subject_tells_the_counts_witness :
  3%nat = 3%nat /\ 1%nat = 1%nat /\ 0%nat = 0%nat.
Proof.
  exact (subject_tells_the_counts "pbench-index" "2020-01-01T00:00:00"
           3 1 0 3 1 0 eq_refl).
Defined.

(** ** A link that cannot be moved *)

(** X21: when the loop over the tar balls is reached (the [start]
    is posted, the temporary directory made and the list written) and
    [rename_tb_link] raises for the first tar ball of the list, the
    run ends there with status 12: the tar ball has its entry in a
    ledger although its link was not moved, and no tar ball after it
    is opened. *)
Theorem rename_failure_ends_run (o : Options) (env : Env) (t : tarball)
  (rest : list tarball) (tr : list event) (tracking_id : string)
  (tb_res : Z) :
  prepare o env = (inr (t :: rest), tr) ->
  post_start env = Some tracking_id ->
  tmpdir_raises env = false ->
  list_file_raises env = false ->
  basename (dirname (tb_path t)) = linksrc o ->
  classify (try_block env (index_tool_data o) (tb_path t)
              (join (INCOMING_rp env) [tb_controller t])) = Some tb_res ->
  (forall dest, rename_raises env (tb_path t) dest = true) ->
  fst (main o env) = Return 12
  /\ opened (snd (main o env)) = [tb_path t]
  /\ exists l, ledger_entries (tb_path t) (snd (main o env)) = [l].
Proof.
  destruct t as [[size controller] tb].
  unfold tb_path, tb_controller. cbn [fst snd].
  intros P Hpost Htmp Hlist Hsane C Hmv.
  destruct (item_move_shape o env 0 None size controller tb tb_res Hsane C)
    as [l [name [Htr _]]].
  assert (Hab : snd (process_item o env 0 None (size, controller, tb))
                = ItemAbort).
  { rewrite (process_item_classified o env 0 None size controller tb
               tb_res Hsane C).
    cbv zeta.
    pose proof (dispatch_shape o env 0 tb_res tb (dirname (dirname tb))
                  (update_end None
                     (try_block env (index_tool_data o) tb
                        (join (INCOMING_rp env) [controller])))) as D.
    unfold dispatch, record_and_move in *.
    destruct (select_branch 0 tb_res); cbn [fst snd] in *;
      rewrite ?Hmv; reflexivity. }
  pose proof (prepare_no_item_event o env) as F.
  rewrite P in F. cbn [snd] in F.
  unfold main, index_tarballs. rewrite P, Hpost, Htmp, Hlist.
  cbn [process_items].
  destruct (process_item o env 0 None (size, controller, tb)) as [tr1 r1].
  cbn [fst snd] in *. subst r1 tr1. cbn [fst snd].
  split; [reflexivity|].
  pose proof (ie_report_no_item_event env
                (update_end None
                   (try_block env (index_tool_data o) tb
                      (join (INCOMING_rp env) [controller]))) tb) as Fie.
  split.
  - change (EvPostStatus "start" true :: ?x)%list
      with ([EvPostStatus "start" true] ++ x)%list.
    change (EvPbenchTarBall tb :: ?x)%list
      with ([EvPbenchTarBall tb] ++ x)%list.
    rewrite !opened_app.
    rewrite (no_item_event_opened _ F), (no_item_event_opened _ Fie).
    reflexivity.
  - exists l.
    change (EvPostStatus "start" true :: ?x)%list
      with ([EvPostStatus "start" true] ++ x)%list.
    rewrite !ledger_entries_app.
    rewrite (no_item_event_ledger_entries _ _ F).
    cbn [app].
    change (ledger_entries tb [EvPostStatus "start" true]) with (@nil ledger).
    change (ledger_entries tb (finalize env)) with (@nil ledger).
    rewrite app_nil_r. cbn [app].
    apply (item_trace_entries tb _ l _ Fie).
Qed.

Lemma rename_failure_ends_run_witness :
  fst (main opts_default env_rename_fails) = Return 12
  /\ opened (snd (main opts_default env_rename_fails))
     = [tb_path (100, "host", tb_a)]
  /\ exists l,
       ledger_entries (tb_path (100, "host", tb_a))
         (snd (main opts_default env_rename_fails)) = [l].
Proof.
  exact (rename_failure_ends_run opts_default env_rename_fails
           (100, "host", tb_a) [(200, "host-1", tb_b)] [EvUpdateTemplates]
           "tracking-id" 0 eq_refl eq_refl eq_refl eq_refl eq_refl eq_refl
           (fun _ => eq_refl)).
Defined.

(** ** Every move of a run *)

Section EveryMove.

Variables (o : Options) (env : Env).

Lemma process_items_event (res : Z) (end_ts : option Z)
  (ts : list tarball) (e : event) :
  In e (fst (process_items o env res end_ts ts)) ->
  exists t end_ts',
    In t ts /\ In e (fst (process_item o env res end_ts' t)).
Proof.
  revert end_ts.
  induction ts as [| t rest IH]; intros end_ts; [intros []|].
  cbn [process_items].
  destruct (process_item o env res end_ts t) as [tr [e' |]] eqn:P.
  - specialize (IH e').
    destruct (process_items o env res e' rest) as [tr' ok].
    cbn [fst] in *. intros H.
    apply in_app_or in H as [H | H].
    + exists t, end_ts. rewrite P. split; [now left | exact H].
    + destruct (IH H) as [t' [e'' [Hin He]]].
      exists t', e''. split; [now right | exact He].
  - cbn [fst]. intros H. exists t, end_ts. rewrite P.
    split; [now left | exact H].
Qed.

(** A move in a round of the loop: the tar ball of the round passed
    the sanity check and got a status, and the directory is the one
    of the table for that status. *)
Lemma process_item_move (res : Z) (end_ts : option Z) (t : tarball)
  (tb dest : string) :
  In (EvRename tb dest) (fst (process_item o env res end_ts t)) ->
  tb = tb_path t
  /\ basename (dirname tb) = linksrc o
  /\ exists name,
       dest = join (dirname (dirname tb)) [name]
       /\ In name
            [linkdest o; "WONT-INDEX.1"; "WONT-INDEX.4"; "WONT-INDEX.5";
             "WONT-INDEX.6"; "WONT-INDEX.7"; "WONT-INDEX.10";
             "WONT-INDEX.11"; "WONT-INDEX.12"].
Proof.
  destruct t as [[size controller] tb'].
  intros Hin.
  assert (Hsane : basename (dirname tb') = linksrc o).
  { revert Hin. unfold process_item.
    destruct (basename (dirname tb') =? linksrc o)%string eqn:E;
      cbn [negb]; [| intros []].
    intros _. now apply String.eqb_eq. }
  destruct (classify (try_block env (index_tool_data o) tb'
                        (join (INCOMING_rp env) [controller])))
    as [tb_res|] eqn:C.
  2:{ revert Hin. unfold process_item.
      rewrite Hsane, String.eqb_refl, C. cbn.
      intros [H | []]. discriminate. }
  destruct (item_move_shape o env res end_ts size controller tb' tb_res
              Hsane C) as [l [name [Htr Hcl]]].
  rewrite Htr in Hin.
  destruct Hin as [H | Hin]; [discriminate|].
  apply in_app_or in Hin as [Hin | Hin].
  { pose proof (ie_report_no_item_event env
                  (update_end end_ts
                     (try_block env (index_tool_data o) tb'
                        (join (INCOMING_rp env) [controller]))) tb') as F.
    rewrite Forall_forall in F. apply F in Hin. discriminate. }
  destruct Hin as [H | [H | []]]; [discriminate|].
  injection H as -> <-.
  unfold tb_path. cbn [snd].
  split; [reflexivity|]. split; [exact Hsane|].
  exists name. split; [reflexivity|].
  destruct Hcl as [[_ [_ ->]] | [[_ [_ ->]] | [_ [Hc ->]]]].
  - now left.
  - right. now left.
  - simpl in Hc.
    repeat (destruct Hc as [<- | Hc]; [simpl; tauto|]). destruct Hc.
Qed.

End EveryMove.

(** X19: every move a run asks of [rename_tb_link] is by the table:
    the link is one that passed the checks of the discovery and lies
    in the source directory of the mode, and the destination is, under
    the controller of the link, the destination of the mode or one of
    [WONT-INDEX.1], [.4], [.5], [.6], [.7], [.10], [.11], [.12]; the
    plain [WONT-INDEX] and any other directory never are. *)
Theorem moves_follow_the_table (o : Options) (env : Env) (tb dest : string) :
  In (EvRename tb dest) (snd (main o env)) ->
  basename (dirname tb) = linksrc o
  /\ (exists l, snd (discover o env) = Some l /\ In tb (map tb_path l))
  /\ exists name,
       dest = join (dirname (dirname tb)) [name]
       /\ In name
            [linkdest o; "WONT-INDEX.1"; "WONT-INDEX.4"; "WONT-INDEX.5";
             "WONT-INDEX.6"; "WONT-INDEX.7"; "WONT-INDEX.10";
             "WONT-INDEX.11"; "WONT-INDEX.12"].
Proof.
  unfold main.
  pose proof (prepare_no_item_event o env) as F.
  destruct (prepare o env) as [[r | ts] tr] eqn:P; cbn [snd] in *.
  { intros H. rewrite Forall_forall in F. apply F in H. discriminate. }
  destruct (prepare_tarballs o env ts tr P) as [l [Hd Hts]].
  unfold index_tarballs.
  assert (Hshort : forall b,
             ~ In (EvRename tb dest) (tr ++ [EvPostStatus "start" b])%list).
  { intros b H. apply in_app_or in H as [H | H].
    - rewrite Forall_forall in F. apply F in H. discriminate.
    - destruct H as [H | []]. discriminate. }
  destruct (post_start env).
  - destruct (tmpdir_raises env);
      [cbn [snd]; intros H; destruct (Hshort _ H)|].
    destruct (list_file_raises env);
      [cbn [snd]; intros H; destruct (Hshort _ H)|].
    destruct (process_items o env 0 None ts) as [tr_i ok] eqn:Q.
    cbn [snd]. intros H.
    apply in_app_or in H as [H | H].
    { rewrite Forall_forall in F. apply F in H. discriminate. }
    destruct H as [H | H]; [discriminate|].
    apply in_app_or in H as [H | H].
    2:{ destruct H as [H | []]. discriminate. }
    assert (H' : In (EvRename tb dest)
                   (fst (process_items o env 0 None ts)))
      by (rewrite Q; exact H).
    apply process_items_event in H' as [t [e' [Hin He]]].
    apply process_item_move in He as [-> [Hsane Hname]].
    split; [exact Hsane|]. split; [| exact Hname].
    exists l. split; [exact Hd|].
    apply in_map. subst ts.
    eapply Permutation_in; [apply Permutation_sym, sorted_perm | exact Hin].
  - cbn [snd]. intros H.
    apply in_app_or in H as [H | H].
    { rewrite Forall_forall in F. apply F in H. discriminate. }
    destruct H as [H | []]. discriminate.
Qed.

Lemma moves_follow_the_table_witness :
  basename (dirname tb_a) = linksrc opts_default
  /\ (exists l,
         snd (discover opts_default env_corrupt_late) = Some l
         /\ In tb_a (map tb_path l))
  /\ exists name,
       "/A/host/WONT-INDEX.11" = join (dirname (dirname tb_a)) [name]
       /\ In name
            [linkdest opts_default; "WONT-INDEX.1"; "WONT-INDEX.4";
             "WONT-INDEX.5"; "WONT-INDEX.6"; "WONT-INDEX.7";
             "WONT-INDEX.10"; "WONT-INDEX.11"; "WONT-INDEX.12"].
Proof.
  apply (moves_follow_the_table opts_default env_corrupt_late tb_a
           "/A/host/WONT-INDEX.11").
  simpl. tauto.
Defined.
